(** * The /api/recommend endpoint (api/recommend.js)

    A shallow embedding of the serverless handler and of the helpers it is
    built from ([tryReadFileSync], [getApiKey], [getFetch],
    [readJsonBody]), followed by the properties of the handler.

    Conventions.
    - A JavaScript string is held as a [string] of the bytes of its UTF-8
      encoding, which is also how the literals of the source file are
      stored.  ['{'] and the letters of ['panama'], ['belize'], ['work'] are
      single bytes that never occur inside a multi-byte sequence, so
      [indexOf], [slice] and [includes] agree with their UTF-16 originals.
    - A JavaScript number is a binary64 [float].
    - An object is an association list in property order with distinct keys.
    - The language built-ins whose text is not part of the repository
      ([JSON.parse], [JSON.stringify], [Number::toString]) are an interface,
      [Builtins]; [Ref.builtins] is an executable instance. *)

From Stdlib Require Import ZArith Bool Ascii String List DecimalString.
From Stdlib Require Import PrimFloat SpecFloat FloatOps.
From stdpp Require Import base option list strings gmap.

Set Default Proof Using "Type".
Set Warnings "-register-all".
Local Open Scope Z_scope.

(** ** JavaScript values *)

Inductive value : Type :=
| VUndef
| VNull
| VBool (b : bool)
| VNum (x : float)
| VStr (s : string)
| VArr (xs : list value)
| VObj (kvs : list (string * value)).

(** A thrown [Error] object: its [name] and its [message]. *)
Record exn : Type := Exn { exn_name : string; exn_message : string }.

Definition TypeError (msg : string) : exn := Exn "TypeError" msg.
Definition SyntaxError (msg : string) : exn := Exn "SyntaxError" msg.
Definition Error (msg : string) : exn := Exn "Error" msg.

(** [String(err)], that is [Error.prototype.toString]. *)
Definition String_exn (e : exn) : string :=
  if String.eqb (exn_name e) "" then exn_message e
  else if String.eqb (exn_message e) "" then exn_name e
  else exn_name e +:+ ": " +:+ exn_message e.

(** The result of evaluating an expression: a value or a thrown error. *)
Inductive result (A : Type) : Type :=
| Ok (a : A)
| Throw (e : exn).
Arguments Ok {A} a.
Arguments Throw {A} e.

Module JS.

(** [ToBoolean]. *)
Definition truthy (v : value) : bool :=
  match v with
  | VUndef | VNull => false
  | VBool b => b
  | VNum x => negb (PrimFloat.is_zero x || PrimFloat.is_nan x)
  | VStr s => negb (String.eqb s "")
  | VArr _ | VObj _ => true
  end.

Definition nullish (v : value) : bool :=
  match v with
  | VUndef | VNull => true
  | _ => false
  end.

(** [a || b] and [a && b] on values that are already evaluated. *)
Definition or_else (a b : value) : value := if truthy a then a else b.

Fixpoint assoc (k : string) (kvs : list (string * value)) : option value :=
  match kvs with
  | [] => None
  | (k', v) :: rest => if String.eqb k k' then Some v else assoc k rest
  end.

(** [v.k] for a value [v] that is neither [null] nor [undefined] and a
    property name [k] that is not an array index and is not defined on a
    built-in prototype.  The handler reads [answers], [destinations],
    [relocationType], [choices], [message] and [content] only. *)
Definition field (v : value) (k : string) : value :=
  match v with
  | VObj kvs => default VUndef (assoc k kvs)
  | _ => VUndef
  end.

(** [v.k]: reading a property of [null] or [undefined] throws. *)
Definition prop (v : value) (k : string) : result value :=
  match v with
  | VUndef =>
      Throw (TypeError ("Cannot read properties of undefined (reading '" +:+ k +:+ "')"))
  | VNull =>
      Throw (TypeError ("Cannot read properties of null (reading '" +:+ k +:+ "')"))
  | _ => Ok (field v k)
  end.

(** [v?.k]. *)
Definition opt_prop (v : value) (k : string) : value :=
  if nullish v then VUndef else field v k.

(** The bytes of the first character of a string. *)
Definition utf8_width (c : ascii) : nat :=
  let n := N_of_ascii c in
  if (n <? 192)%N then 1%nat
  else if (n <? 224)%N then 2%nat
  else if (n <? 240)%N then 3%nat
  else 4%nat.

Definition first_char (s : string) : option string :=
  match s with
  | EmptyString => None
  | String c _ => Some (String.substring 0 (utf8_width c) s)
  end.

(** [v?.[0]]. *)
Definition opt_elem0 (v : value) : value :=
  match v with
  | VArr (x :: _) => x
  | VObj kvs => default VUndef (assoc "0" kvs)
  | VStr s => from_option VStr VUndef (first_char s)
  | _ => VUndef
  end.

(** [Object.keys(v).length] for a truthy [v], as a test for zero. *)
Definition has_keys (v : value) : bool :=
  match v with
  | VObj kvs => negb (Nat.eqb (length kvs) 0)
  | VArr xs => negb (Nat.eqb (length xs) 0)
  | VStr s => negb (String.eqb s "")
  | _ => false
  end.

(** [Array.isArray]. *)
Definition isArray (v : value) : bool :=
  match v with
  | VArr _ => true
  | _ => false
  end.

(** [SameValueZero(v, s)] for a string [s]. *)
Definition same_as_string (s : string) (v : value) : bool :=
  match v with
  | VStr t => String.eqb t s
  | _ => false
  end.

(** [xs.includes(s)] on an array, for a string [s]. *)
Definition array_includes (xs : list value) (s : string) : bool :=
  existsb (same_as_string s) xs.

(** [xs.indexOf(s)] on an array, for a string [s] (strict equality). *)
Fixpoint array_indexOf (xs : list value) (s : string) : option nat :=
  match xs with
  | [] => None
  | x :: rest =>
      if same_as_string s x then Some 0%nat
      else S <$> array_indexOf rest s
  end.

(** [s.includes(sub)] on a string. *)
Fixpoint string_includes (s sub : string) : bool :=
  String.prefix sub s ||
  match s with
  | EmptyString => false
  | String _ rest => string_includes rest sub
  end.

(** [s.indexOf(sub)] on a string. *)
Fixpoint string_indexOf (s sub : string) : option nat :=
  if String.prefix sub s then Some 0%nat
  else match s with
       | EmptyString => None
       | String _ rest => S <$> string_indexOf rest sub
       end.

(** [s.slice(start)] for [0 <= start]. *)
Fixpoint string_slice (s : string) (start : nat) : string :=
  match start, s with
  | O, _ => s
  | S n, String _ rest => string_slice rest n
  | S _, EmptyString => EmptyString
  end.

End JS.

(** ** The language built-ins the handler calls *)

(** [JSON.parse] returns a value or throws, [JSON.stringify] and
    [Number::toString] are total on the values that occur.  The one fact
    about them that the handler relies on is that the text [{}] parses to the
    empty object. *)
Class Builtins : Type := {
  JSON_parse : string -> result value;
  JSON_stringify : value -> string;
  Number_toString : float -> string;
  JSON_parse_empty_object : JSON_parse "{}" = Ok (VObj [])
}.

Module Str.

Definition bytes (l : list nat) : string :=
  string_of_list_ascii (map ascii_of_nat l).

(** The characters [String.prototype.trim] removes (WhiteSpace and
    LineTerminator of ECMAScript), each in UTF-8: TAB, LF, VT, FF, CR, SP,
    U+00A0, U+1680, U+2000 to U+200A, U+2028, U+2029, U+202F, U+205F,
    U+3000 and U+FEFF. *)
Definition WhiteSpace : list string :=
  map bytes
    [ [9]; [10]; [11]; [12]; [13]; [32]; [194; 160]; [225; 154; 128];
      [226; 128; 128]; [226; 128; 129]; [226; 128; 130]; [226; 128; 131];
      [226; 128; 132]; [226; 128; 133]; [226; 128; 134]; [226; 128; 135];
      [226; 128; 136]; [226; 128; 137]; [226; 128; 138]; [226; 128; 168];
      [226; 128; 169]; [226; 128; 175]; [226; 129; 159]; [227; 128; 128];
      [239; 187; 191] ]%nat.

Fixpoint strip_prefix (p s : string) : option string :=
  match p, s with
  | EmptyString, _ => Some s
  | String a p', String b s' =>
      if Ascii.eqb a b then strip_prefix p' s' else None
  | String _ _, EmptyString => None
  end.

(** Drop one leading character of [ws], when there is one. *)
Fixpoint strip_one (ws : list string) (s : string) : option string :=
  match ws with
  | [] => None
  | w :: rest =>
      match strip_prefix w s with
      | Some r => Some r
      | None => strip_one rest s
      end
  end.

(** At most [n] leading characters of [ws] are dropped; [n] is the length
    of the string where this is called, so all of them are. *)
Fixpoint strip_many (ws : list string) (n : nat) (s : string) : string :=
  match n with
  | O => s
  | S n' =>
      match strip_one ws s with
      | Some r => strip_many ws n' r
      | None => s
      end
  end.

Definition trimStart (s : string) : string :=
  strip_many WhiteSpace (String.length s) s.

Definition trimEnd (s : string) : string :=
  String.rev (strip_many (map String.rev WhiteSpace) (String.length s) (String.rev s)).

(** [s.trim()]. *)
Definition trim (s : string) : string := trimEnd (trimStart s).

Definition nonempty (s : string) : bool := negb (String.eqb s "").

End Str.

Section ToString.
Context `{Builtins}.

(** [ToString] on values; an array is joined with commas, [null] and
    [undefined] elements giving the empty string. *)
Fixpoint ToString (v : value) : string :=
  match v with
  | VUndef => "undefined"
  | VNull => "null"
  | VBool true => "true"
  | VBool false => "false"
  | VNum x => Number_toString x
  | VStr s => s
  | VArr xs =>
      String.concat ","
        (map (fun x => if JS.nullish x then EmptyString else ToString x) xs)
  | VObj _ => "[object Object]"
  end.

(** The body of the inner [try] up to [JSON.parse]:
    [const start = assistant.indexOf('{');]
    [const jsonText = start >= 0 ? assistant.slice(start) : assistant;]
    [const parsed = JSON.parse(jsonText);]
    A string and an array have [indexOf] and [slice]; on any other value
    [assistant.indexOf] is not a function. *)
Definition parse_assistant (assistant : value) : result value :=
  match assistant with
  | VStr s =>
      JSON_parse
        match JS.string_indexOf s "{" with
        | Some start => JS.string_slice s start
        | None => s
        end
  | VArr xs =>
      JSON_parse
        (ToString (VArr match JS.array_indexOf xs "{" with
                        | Some start => drop start xs
                        | None => xs
                        end))
  | VUndef => Throw (TypeError "Cannot read properties of undefined (reading 'indexOf')")
  | VNull => Throw (TypeError "Cannot read properties of null (reading 'indexOf')")
  | _ => Throw (TypeError "assistant.indexOf is not a function")
  end.

End ToString.

(** ** The world outside the handler *)

(** What [fetch] is called with. *)
Record fetch_init : Type := FetchInit {
  init_method : string;
  init_headers : list (string * string);
  init_body : string
}.

(** The object a successful [fetch] resolves to: [resp.ok], [resp.status]
    and the body that [resp.text()] resolves to (or the error it rejects
    with); [resp.json()] parses that text. *)
Record response : Type := Response {
  resp_ok : bool;
  resp_status : float;
  resp_text : result string
}.

(** A fetch function resolves to a response or rejects. *)
Definition fetch_fn : Type := string -> fetch_init -> result response.

Record World : Type := {
  (** [process.env] *)
  env : gmap string string;
  (** The files [fs.readFileSync(path, 'utf8')] can read, with their
      contents; reading any other path throws. *)
  files : gmap string string;
  (** [globalThis.fetch] when [typeof globalThis.fetch === 'function']. *)
  global_fetch : option fetch_fn;
  (** The default export of [import('node-fetch')], or the error the import
      rejects with. *)
  node_fetch : result fetch_fn
}.

(** How the request stream ends: with ['end'] or with ['error']. *)
Inductive stream_end : Type := StreamEnd | StreamError.

Record Request : Type := {
  (** [req.method] *)
  method : string;
  (** [req.body], [VUndef] when the transport has set none. *)
  body : value;
  (** The ['data'] chunks of the request stream, each as the text that
      [d += c] appends for it: a chunk that is a Buffer is decoded on its
      own, so a character cut by a chunk boundary is already replacement
      characters here. *)
  chunks : list string;
  finish : stream_end
}.

(** ** Effects *)

(** What the handler does to the outside, in order. *)
Inductive event : Type :=
| SetHeader (name val : string)      (* res.setHeader(name, val) *)
| Status (code : Z)                  (* res.status(code) *)
| Json (payload : value)             (* res.json(payload): the response is sent *)
| ReadStream                         (* the request stream is consumed *)
| ReadFile (path : string)           (* fs.readFileSync(path, 'utf8') *)
| Import (module : string)           (* import(module) *)
| Fetch (url : string) (init : fetch_init)
| Console (level label : string).    (* console[level](label, ...) *)

(** A computation: the events so far and a value or a thrown error. *)
Definition M (A : Type) : Type := list event * result A.

#[export] Instance M_ret : MRet M := fun A a => ([], Ok a).

#[export] Instance M_bind : MBind M := fun A B f m =>
  match m with
  | (t, Ok a) => let '(t', r) := f a in (t ++ t', r)
  | (t, Throw e) => (t, Throw e)
  end.

Definition emit (e : event) : M unit := ([e], Ok tt).

Definition throw {A : Type} (e : exn) : M A := ([], Throw e).

Definition lift {A : Type} (r : result A) : M A := ([], r).

(** [try { m } catch (err) { h err }]. *)
Definition try_catch {A : Type} (m : M A) (h : exn -> M A) : M A :=
  match m with
  | (t, Throw e) => let '(t', r) := h e in (t ++ t', r)
  | (t, Ok a) => (t, Ok a)
  end.

Definition trace {A : Type} (m : M A) : list event := fst m.
Definition outcome {A : Type} (m : M A) : result A := snd m.

(** The responses sent in a trace, each with the status code set at that
    moment; the status code of a fresh response object is 200. *)
Fixpoint responses_from (code : Z) (t : list event) : list (Z * value) :=
  match t with
  | [] => []
  | Status c :: rest => responses_from c rest
  | Json payload :: rest => (code, payload) :: responses_from code rest
  | _ :: rest => responses_from code rest
  end.

Definition responses (t : list event) : list (Z * value) := responses_from 200 t.

Definition headers (t : list event) : list (string * string) :=
  omap (fun e => match e with SetHeader k v => Some (k, v) | _ => None end) t.

Definition is_fetch (e : event) : bool :=
  match e with Fetch _ _ => true | _ => false end.

Definition is_input (e : event) : bool :=
  match e with
  | ReadStream | ReadFile _ | Import _ | Fetch _ _ => true
  | _ => false
  end.

(** An event that sends nothing and sets nothing on the response. *)
Definition quiet (e : event) : bool :=
  match e with
  | Status _ | Json _ | SetHeader _ _ => false
  | _ => true
  end.

(** A trace that neither touches the response nor calls the upstream. *)
Definition silent (t : list event) : Prop :=
  forallb (fun e => quiet e && negb (is_fetch e)) t = true.

(** ** The handler and its helpers *)

Definition dq : string := String (ascii_of_nat 34) EmptyString.
Definition nl : string := String (ascii_of_nat 10) EmptyString.

(** A [string | null] result used as a condition. *)
Definition truthy_key (k : option string) : bool :=
  match k with
  | Some s => Str.nonempty s
  | None => false
  end.

Section Handler.
Context `{Builtins}.
Variable w : World.

(** [tryReadFileSync(path)] *)
Definition tryReadFileSync (path : string) : M (option string) :=
  emit (ReadFile path);;
  match files w !! path with
  | Some content =>
      let s := Str.trim content in
      if Str.nonempty s then mret (Some s) else mret None
  | None => mret None   (* catch (e) { /* ignore */ } *)
  end.

(** [process.env.NAME && process.env.NAME.trim()], as the value returned
    when it is truthy. *)
Definition env_key (name : string) : option string :=
  match env w !! name with
  | Some s =>
      if Str.nonempty s && Str.nonempty (Str.trim s) then Some (Str.trim s)
      else None
  | None => None
  end.

(** [getApiKey()] *)
Definition getApiKey : M (option string) :=
  match env_key "OPENAI_API_KEY" with
  | Some k => mret (Some k)
  | None =>
  match env_key "OPEN_AI_KEY" with
  | Some k => mret (Some k)
  | None =>
    fromFile ←
      match env w !! "OPEN_AI_KEY_FILE" with
      | Some p => if Str.nonempty p then tryReadFileSync p else mret None
      | None => mret None
      end;
    if truthy_key fromFile then mret fromFile else
    fromLocal ← tryReadFileSync "./OPEN_AI_KEY";
    if truthy_key fromLocal then mret fromLocal else
    fromRunSecrets ← tryReadFileSync "/run/secrets/OPEN_AI_KEY";
    if truthy_key fromRunSecrets then mret fromRunSecrets else
    mret None
  end end.

(** [getFetch()] *)
Definition getFetch : M fetch_fn :=
  match global_fetch w with
  | Some f => mret f
  | None =>
      emit (Import "node-fetch");;
      match node_fetch w with
      | Ok nodeFetch => mret nodeFetch
      | Throw err =>
          throw (Error ("No fetch available and node-fetch failed to import: "
                        +:+ String_exn err))
      end
  end.

(** [readJsonBody(req)] *)
Definition readJsonBody (req : Request) : M value :=
  if JS.truthy (body req) && JS.has_keys (body req) then mret (body req)
  else
    emit ReadStream;;
    let d := String.concat "" (chunks req) in
    match finish req with
    | StreamEnd =>
        match JSON_parse (if Str.nonempty d then d else "{}") with
        | Ok v => mret v
        | Throw _ => mret (VObj [])
        end
    | StreamError => mret (VObj [])
    end.

(** Lines 69 to 74: the country the fallback picks. *)
Definition pick_country (answers : value) : result string :=
  match JS.prop answers "destinations", JS.prop answers "relocationType" with
  | Throw e, _ => Throw e
  | Ok _, Throw e => Throw e
  | Ok destinations, Ok relocationType =>
      let dests :=
        match destinations with
        | VArr xs => xs
        | _ => if JS.truthy destinations then [destinations] else []
        end in
      let relocation := JS.or_else relocationType (VStr "") in
      if JS.array_includes dests "panama" then Ok "Panama"
      else if JS.array_includes dests "belize" then Ok "Belize"
      else if JS.truthy relocation then
        match relocation with
        | VStr s => Ok (if JS.string_includes s "work" then "Panama" else "Costa Rica")
        | VArr xs => Ok (if JS.array_includes xs "work" then "Panama" else "Costa Rica")
        | _ => Throw (TypeError "relocation.includes is not a function")
        end
      else Ok "Costa Rica"
  end.

Definition city (name reason : string) : value :=
  VObj [("name", VStr name); ("reason", VStr reason)].

(** Lines 75 to 87: the object the fallback answers with. *)
Definition fallback_body (pick : string) : value :=
  let choose (cr pa bz : string) : string :=
    if String.eqb pick "Costa Rica" then cr
    else if String.eqb pick "Panama" then pa else bz in
  VObj
    [ ("country", VStr pick);
      ("score", VNum 75);
      ("reasons",
        VArr [ VStr ("Based on your selections, " +:+ pick
                     +:+ " aligns best with your priorities.");
               VStr "Good balance of lifestyle, services, and accessibility for your needs." ]);
      ("cities",
        VArr [ city (choose "San José" "Panama City" "Belize City") "Main hub with services";
               city (choose "Guanacaste" "Boquete" "San Pedro") "Popular expat/retirement spot";
               city (choose "La Fortuna" "David" "Caye Caulker") "Leisure and nature options" ]) ].

(** Lines 67 to 89: the branch taken when there is no key. *)
Definition fallback (answers : value) : M unit :=
  emit (Console "warn" "No OpenAI key found; returning fallback recommendation for debugging.");;
  pick ← lift (pick_country answers);
  emit (Status 200);;
  emit (Json (fallback_body pick)).

Definition system_prompt : string :=
  "You are a concise relocation advisor expert for Costa Rica, Panama, and Belize." +:+ nl +:+
  "Given a user's structured answers, pick the single best country (Costa Rica, Panama, or Belize)," +:+ nl +:+
  "explain why in 2-4 short bullet reasons, and list 3 cities with a brief reason for each. Put a disclaimer that this is only a suggestion and that speaking with a representative is important." +:+ nl +:+
  "Return a strict JSON object ONLY (no extra commentary).".

Definition user_prompt (answers : value) : string :=
  "User answers (JSON): " +:+ JSON_stringify answers +:+ "." +:+ nl +:+
  "Return JSON with keys:" +:+ nl +:+
  "- country: string (one of " +:+ dq +:+ "Costa Rica" +:+ dq +:+ "," +:+ dq +:+ "Panama"
    +:+ dq +:+ "," +:+ dq +:+ "Belize" +:+ dq +:+ ")" +:+ nl +:+
  "- score: integer 0-100 (confidence)" +:+ nl +:+
  "- reasons: array of short strings (2-4)" +:+ nl +:+
  "- cities: array of { name: string, reason: string } (3 entries)" +:+ nl +:+
  "Keep outputs short and concise.".

Definition completions_url : string := "https://api.openai.com/v1/chat/completions".

Definition completions_init (key : string) (answers : value) : fetch_init :=
  {| init_method := "POST";
     init_headers := [ ("Authorization", "Bearer " +:+ key);
                       ("Content-Type", "application/json") ];
     init_body :=
       JSON_stringify
         (VObj [ ("model", VStr "gpt-3.5-turbo");
                 ("temperature", VNum 0x1.6666666666666p-2);  (* 0.35 *)
                 ("messages",
                   VArr [ VObj [("role", VStr "system"); ("content", VStr system_prompt)];
                          VObj [("role", VStr "user"); ("content", VStr (user_prompt answers))] ]);
                 ("max_tokens", VNum 400) ]) |}.

(** [resp.json()] *)
Definition resp_json (resp : response) : result value :=
  match resp_text resp with
  | Ok txt => JSON_parse txt
  | Throw e => Throw e
  end.

(** [j.choices?.[0]?.message?.content || ''] *)
Definition assistant_of (j : value) : result value :=
  match JS.prop j "choices" with
  | Ok choices =>
      Ok (JS.or_else
            (JS.opt_prop (JS.opt_prop (JS.opt_elem0 choices) "message") "content")
            (VStr ""))
  | Throw e => Throw e
  end.

(** Lines 124 to 142: what is done with the response of the upstream. *)
Definition handle_response (resp : response) : M unit :=
  if negb (resp_ok resp) then
    txt ← lift (resp_text resp);
    emit (Console "error" "OpenAI API error:");;
    emit (Status 502);;
    emit (Json (VObj [ ("error", VStr "OpenAI API error");
                       ("status", VNum (resp_status resp));
                       ("body", VStr txt) ]))
  else
    j ← lift (resp_json resp);
    assistant ← lift (assistant_of j);
    try_catch
      (parsed ← lift (parse_assistant assistant);
       emit (Status 200);;
       emit (Json parsed))
      (fun err =>
         emit (Console "warn" "Failed to parse assistant JSON; returning text. Assistant output:");;
         emit (Status 200);;
         emit (Json (VObj [("text", assistant)]))).

(** Lines 91 to 146: the branch taken with a key. *)
Definition upstream (key : string) (answers : value) : M unit :=
  try_catch
    (fetchFn ← getFetch;
     emit (Fetch completions_url (completions_init key answers));;
     resp ← lift (fetchFn completions_url (completions_init key answers));
     handle_response resp)
    (fun err =>
       emit (Console "error" "Server error in recommend function:");;
       emit (Status 500);;
       emit (Json (VObj [ ("error", VStr "Server error");
                          ("message", VStr (String_exn err)) ]))).

(** [module.exports = async (req, res) => ...] *)
Definition handler (req : Request) : M unit :=
  if negb (String.eqb (method req) "POST") then
    emit (SetHeader "Allow" "POST");;
    emit (Status 405);;
    emit (Json (VObj [("error", VStr "Method not allowed. Use POST.")]))
  else
    body ← readJsonBody req;
    a ← lift (JS.prop body "answers");
    let answers := JS.or_else a (VObj []) in
    OPENAI_KEY ← getApiKey;
    if negb (truthy_key OPENAI_KEY) then fallback answers
    else upstream (default "" OPENAI_KEY) answers.

End Handler.

(** ** An executable instance of the built-ins

    [Ref.builtins] implements the JSON grammar of ECMA-404 and the number
    conversions of ECMAScript on the representation above.  The properties
    below hold for every instance of [Builtins]; this one is there to run
    the handler on concrete requests. *)
Module Ref.

Definition code (c : ascii) : Z := Z.of_N (N_of_ascii c).
Definition char (n : Z) : ascii := ascii_of_N (Z.to_N n).
Definition str1 (n : Z) : string := String (char n) EmptyString.

(** *** Decimal text to binary64, correctly rounded *)

(** The float nearest to [m * 10^e] for [0 <= m], ties to even.  For a
    negative [e] the quotient is taken with 64 bits or more and a sticky
    last bit, which rounds as the exact quotient does. *)
Definition float_of_decimal (neg : bool) (m e : Z) : float :=
  if m =? 0 then (if neg then neg_zero else zero)
  else
    let sf :=
      if 0 <=? e then binary_normalize prec emax (m * 10 ^ e) 0 false
      else
        let d := 10 ^ (- e) in
        let k := Z.max 0 (64 + Z.log2 d - Z.log2 m) in
        let q := (m * 2 ^ k) / d in
        let sticky := if (m * 2 ^ k) mod d =? 0 then 0 else 1 in
        binary_normalize prec emax (2 * q + sticky) (- k - 1) false in
    let x := SF2Prim sf in
    if neg then (- x)%float else x.

(** *** Binary64 to decimal text: [Number::toString] *)

Definition digits_of (z : Z) : string :=
  DecimalString.NilZero.string_of_uint (N.to_uint (Z.to_N z)).

(** [num / den < 10^n] *)
Definition below_pow10 (num den n : Z) : bool :=
  if 0 <=? n then num <? den * 10 ^ n else num * 10 ^ (- n) <? den.

(** The [n] with [10^(n-1) <= num/den < 10^n], searched downwards from an
    upper estimate. *)
Fixpoint magnitude (fuel : nat) (num den n : Z) : Z :=
  match fuel with
  | O => n
  | S fuel' =>
      if below_pow10 num den (n - 1) then magnitude fuel' num den (n - 1) else n
  end.

(** The shortest digits [s] (with [k] digits) and the exponent [n] such
    that [s * 10^(n-k)] reads back as [x]; among several, the nearest to
    [x], and the even one on a tie. *)
Fixpoint shortest (fuel : nat) (x : float) (num den n k : Z) : Z * Z * Z :=
  let scale := k - n in
  let '(a, b) := if 0 <=? scale then (num * 10 ^ scale, den)
                 else (num, den * 10 ^ (- scale)) in
  let lo := a / b in
  let hi := lo + 1 in
  let reads (s : Z) := (float_of_decimal false s (n - k) =? x)%float in
  let lo_ok := reads lo in
  let hi_ok := reads hi in
  (* 2 * (a/b - lo) compared with 1: which of lo and hi is nearer *)
  let twice := 2 * (a - lo * b) in
  let pick_hi :=
    hi_ok && (negb lo_ok || (b <? twice) || ((twice =? b) && Z.odd lo)) in
  if lo_ok || hi_ok then
    if pick_hi then
      if hi =? 10 ^ k then (10 ^ (k - 1), k, n + 1) else (hi, k, n)
    else (lo, k, n)
  else
    match fuel with
    | O => (lo, k, n)
    | S fuel' => shortest fuel' x num den n (k + 1)
    end.

Definition zeros (n : Z) : string :=
  string_of_list_ascii (repeat "0"%char (Z.to_nat n)).

Definition format_digits (s k n : Z) : string :=
  let ds := digits_of s in
  if (k <=? n) && (n <=? 21) then ds +:+ zeros (n - k)
  else if (0 <? n) && (n <=? 21) then
    String.substring 0 (Z.to_nat n) ds +:+ "." +:+
    String.substring (Z.to_nat n) (Z.to_nat (k - n)) ds
  else if (-6 <? n) && (n <=? 0) then "0." +:+ zeros (- n) +:+ ds
  else
    let e := n - 1 in
    let exponent := (if 0 <=? e then "e+" else "e-") +:+ digits_of (Z.abs e) in
    if k =? 1 then ds +:+ exponent
    else String.substring 0 1 ds +:+ "." +:+
         String.substring 1 (Z.to_nat (k - 1)) ds +:+ exponent.

Definition Number_toString (x : float) : string :=
  match Prim2SF x with
  | S754_nan => "NaN"
  | S754_zero _ => "0"
  | S754_infinity neg => if neg then "-Infinity" else "Infinity"
  | S754_finite neg m e =>
      let '(num, den) := if 0 <=? e then (Zpos m * 2 ^ e, 1) else (Zpos m, 2 ^ (- e)) in
      let estimate := ((Z.log2 num - Z.log2 den + 1) * 30103) / 100000 + 2 in
      let n := magnitude 8 num den estimate in
      let '(s, k, n') := shortest 17 (abs x) num den n 1 in
      (if neg then "-" else "") +:+ format_digits s k n'
  end.

(** *** [JSON.parse] *)

Definition is_ws (c : ascii) : bool :=
  let n := code c in (n =? 32) || (n =? 9) || (n =? 10) || (n =? 13).

Fixpoint skip_ws (s : string) : string :=
  match s with
  | String c rest => if is_ws c then skip_ws rest else s
  | EmptyString => s
  end.

Definition digit_of (c : ascii) : option Z :=
  let n := code c in
  if (48 <=? n) && (n <=? 57) then Some (n - 48) else None.

Definition hex_of (c : ascii) : option Z :=
  let n := code c in
  if (48 <=? n) && (n <=? 57) then Some (n - 48)
  else if (65 <=? n) && (n <=? 70) then Some (n - 55)
  else if (97 <=? n) && (n <=? 102) then Some (n - 87)
  else None.

(** The digits at the front of [s]: their value after [acc], how many
    there are, and what follows them. *)
Fixpoint digits (acc : Z) (count : nat) (s : string) : Z * nat * string :=
  match s with
  | String c rest =>
      match digit_of c with
      | Some d => digits (10 * acc + d) (S count) rest
      | None => (acc, count, s)
      end
  | EmptyString => (acc, count, s)
  end.

(** number = [-] int [frac] [exp] *)
Definition parse_number (s : string) : option (float * string) :=
  let '(neg, s1) := match s with
                    | String "-" rest => (true, rest)
                    | _ => (false, s)
                    end in
  let '(int, n_int, s2) := digits 0 0 s1 in
  let leading_zero := match s1 with String "0" _ => true | _ => false end in
  if Nat.eqb n_int 0 || (leading_zero && negb (Nat.eqb n_int 1)) then None
  else
    let frac :=
      match s2 with
      | String "." rest =>
          let '(m, n_frac, s3) := digits int 0 rest in
          if Nat.eqb n_frac 0 then None else Some (m, Z.of_nat n_frac, s3)
      | _ => Some (int, 0, s2)
      end in
    match frac with
    | None => None
    | Some (m, n_frac, s3) =>
        let finish (e : Z) (rest : string) :=
          Some (float_of_decimal neg m (e - n_frac), rest) in
        let exponent (negative : bool) (rest : string) :=
          let '(e, n_exp, s4) := digits 0 0 rest in
          if Nat.eqb n_exp 0 then None
          else finish (if negative then - e else e) s4 in
        match s3 with
        | String c rest =>
            if (code c =? 101) || (code c =? 69) then
              match rest with
              | String "+" rest' => exponent false rest'
              | String "-" rest' => exponent true rest'
              | _ => exponent false rest
              end
            else finish 0 s3
        | EmptyString => finish 0 s3
        end
    end.

(** The UTF-8 bytes of a code point (a lone surrogate is written with the
    three-byte pattern as well). *)
Definition utf8 (cp : Z) : string :=
  if cp <? 128 then str1 cp
  else if cp <? 2048 then str1 (192 + cp / 64) +:+ str1 (128 + cp mod 64)
  else if cp <? 65536 then
    str1 (224 + cp / 4096) +:+ str1 (128 + (cp / 64) mod 64) +:+ str1 (128 + cp mod 64)
  else
    str1 (240 + cp / 262144) +:+ str1 (128 + (cp / 4096) mod 64) +:+
    str1 (128 + (cp / 64) mod 64) +:+ str1 (128 + cp mod 64).

(** Four hexadecimal digits. *)
Definition hex4 (s : string) : option (Z * string) :=
  match s with
  | String a (String b (String c (String d rest))) =>
      match hex_of a, hex_of b, hex_of c, hex_of d with
      | Some x, Some y, Some z, Some t => Some (4096 * x + 256 * y + 16 * z + t, rest)
      | _, _, _, _ => None
      end
  | _ => None
  end.

(** The characters of a string literal after its opening quote. *)
Fixpoint parse_chars (fuel : nat) (acc : string) (s : string) : option (string * string) :=
  match fuel with
  | O => None
  | S fuel' =>
      match s with
      | EmptyString => None
      | String c rest =>
          if code c =? 34 then Some (acc, rest)
          else if code c <? 32 then None
          else if code c =? 92 then
            match rest with
            | String e rest' =>
                let simple (n : Z) := parse_chars fuel' (acc +:+ str1 n) rest' in
                match code e with
                | 34 => simple 34
                | 92 => simple 92
                | 47 => simple 47
                | 98 => simple 8
                | 102 => simple 12
                | 110 => simple 10
                | 114 => simple 13
                | 116 => simple 9
                | 117 =>
                    match hex4 rest' with
                    | None => None
                    | Some (hi, after) =>
                        let pair :=
                          if (55296 <=? hi) && (hi <=? 56319) then
                            match after with
                            | String b (String u more) =>
                                if (code b =? 92) && (code u =? 117) then
                                  match hex4 more with
                                  | Some (lo, after') =>
                                      if (56320 <=? lo) && (lo <=? 57343)
                                      then Some (65536 + (hi - 55296) * 1024 + (lo - 56320), after')
                                      else None
                                  | None => None
                                  end
                                else None
                            | _ => None
                            end
                          else None in
                        match pair with
                        | Some (cp, after') => parse_chars fuel' (acc +:+ utf8 cp) after'
                        | None => parse_chars fuel' (acc +:+ utf8 hi) after
                        end
                    end
                | _ => None
                end
            | EmptyString => None
            end
          else parse_chars fuel' (acc +:+ str1 (code c)) rest
      end
  end.

(** An array index as a property key: the decimal text of an integer
    below 2^32 - 1. *)
Definition index_of_key (k : string) : option Z :=
  let '(n, count, rest) := digits 0 0 k in
  if negb (Nat.eqb count 0) && String.eqb rest "" && String.eqb (digits_of n) k
     && (n <? 4294967295)
  then Some n else None.

Fixpoint replace_key (k : string) (v : value) (kvs : list (string * value))
  : option (list (string * value)) :=
  match kvs with
  | [] => None
  | (k', v') :: rest =>
      if String.eqb k k' then Some ((k, v) :: rest)
      else cons (k', v') <$> replace_key k v rest
  end.

Fixpoint insert_index (i : Z) (k : string) (v : value) (kvs : list (string * value))
  : list (string * value) :=
  match kvs with
  | [] => [(k, v)]
  | (k', v') :: rest =>
      match index_of_key k' with
      | Some j => if j <? i then (k', v') :: insert_index i k v rest
                  else (k, v) :: kvs
      | None => (k, v) :: kvs
      end
  end.

(** Defining property [k] of an object: an existing property keeps its
    place, a new index goes among the indices in ascending order, any
    other new key goes last. *)
Definition obj_set (k : string) (v : value) (kvs : list (string * value))
  : list (string * value) :=
  match replace_key k v kvs with
  | Some kvs' => kvs'
  | None =>
      match index_of_key k with
      | Some i => insert_index i k v kvs
      | None => kvs ++ [(k, v)]
      end
  end.

Fixpoint parse_value (fuel : nat) (s : string) : option (value * string) :=
  match fuel with
  | O => None
  | S fuel' =>
      let s := skip_ws s in
      match s with
      | EmptyString => None
      | String c rest =>
          match code c with
          | 123 => (* { *)
              match skip_ws rest with
              | String "}" rest' => Some (VObj [], rest')
              | _ => parse_members fuel' [] rest
              end
          | 91 => (* [ *)
              match skip_ws rest with
              | String "]" rest' => Some (VArr [], rest')
              | _ =>
                  match parse_value fuel' rest with
                  | Some (v, rest') => parse_elements fuel' [v] rest'
                  | None => None
                  end
              end
          | 34 =>
              match parse_chars (String.length rest) EmptyString rest with
              | Some (str, rest') => Some (VStr str, rest')
              | None => None
              end
          | 116 => pair (VBool true) <$> Str.strip_prefix "true" s
          | 102 => pair (VBool false) <$> Str.strip_prefix "false" s
          | 110 => pair VNull <$> Str.strip_prefix "null" s
          | _ =>
              match parse_number s with
              | Some (x, rest') => Some (VNum x, rest')
              | None => None
              end
          end
      end
  end
(** After an element: a comma and the next element, or the closing
    bracket. *)
with parse_elements (fuel : nat) (acc : list value) (s : string)
  : option (value * string) :=
  match fuel with
  | O => None
  | S fuel' =>
      match skip_ws s with
      | String "]" rest => Some (VArr (rev acc), rest)
      | String "," rest =>
          match parse_value fuel' rest with
          | Some (v, rest') => parse_elements fuel' (v :: acc) rest'
          | None => None
          end
      | _ => None
      end
  end
(** A member [key : value], then a comma and the next member, or the
    closing brace. *)
with parse_members (fuel : nat) (acc : list (string * value)) (s : string)
  : option (value * string) :=
  match fuel with
  | O => None
  | S fuel' =>
      match skip_ws s with
      | String c rest =>
          if code c =? 34 then
            match parse_chars (String.length rest) EmptyString rest with
            | Some (k, rest1) =>
                match skip_ws rest1 with
                | String ":" rest2 =>
                    match parse_value fuel' rest2 with
                    | Some (v, rest3) =>
                        match skip_ws rest3 with
                        | String "}" rest4 => Some (VObj (obj_set k v acc), rest4)
                        | String "," rest4 => parse_members fuel' (obj_set k v acc) rest4
                        | _ => None
                        end
                    | None => None
                    end
                | _ => None
                end
            | None => None
            end
          else None
      | EmptyString => None
      end
  end.

Definition JSON_parse (s : string) : result value :=
  match parse_value (S (String.length s)) s with
  | Some (v, rest) =>
      if String.eqb (skip_ws rest) "" then Ok v
      else Throw (SyntaxError "Unexpected non-whitespace character after JSON")
  | None => Throw (SyntaxError "Unexpected token or end of JSON input")
  end.

(** *** [JSON.stringify] *)

Definition hex_digit (n : Z) : string :=
  str1 (if n <? 10 then 48 + n else 87 + n).

(** One character of [QuoteJSONString]. *)
Definition quote_char (c : ascii) : string :=
  let n := code c in
  if n =? 34 then str1 92 +:+ str1 34
  else if n =? 92 then str1 92 +:+ str1 92
  else if n =? 8 then "\b"
  else if n =? 12 then "\f"
  else if n =? 10 then "\n"
  else if n =? 13 then "\r"
  else if n =? 9 then "\t"
  else if n <? 32 then "\u00" +:+ hex_digit (n / 16) +:+ hex_digit (n mod 16)
  else str1 n.

Fixpoint quote_chars (s : string) : string :=
  match s with
  | EmptyString => EmptyString
  | String c rest => quote_char c +:+ quote_chars rest
  end.

Definition quote (s : string) : string := dq +:+ quote_chars s +:+ dq.

Definition is_undef (v : value) : bool :=
  match v with VUndef => true | _ => false end.

(** [JSON.stringify(v)] without indentation; of [undefined] it is the text
    a template literal shows for it. *)
Fixpoint JSON_stringify (v : value) : string :=
  match v with
  | VUndef => "undefined"
  | VNull => "null"
  | VBool true => "true"
  | VBool false => "false"
  | VNum x => if is_finite x then Number_toString x else "null"
  | VStr s => quote s
  | VArr xs =>
      "[" +:+ String.concat ","
                (map (fun x => if is_undef x then "null" else JSON_stringify x) xs)
      +:+ "]"
  | VObj kvs =>
      "{" +:+ String.concat ","
                (omap (fun '(k, x) =>
                         if is_undef x then None
                         else Some (quote k +:+ ":" +:+ JSON_stringify x)) kvs) +:+ "}"
  end.

#[export] Instance builtins : Builtins :=
  Build_Builtins JSON_parse JSON_stringify Number_toString eq_refl.

End Ref.

(** ** The specification's words

    The definitions below follow the prose of the specification, not the
    code; the theorems relate the two. *)

(** [sub] occurs in [s]. *)
Definition contains (s sub : string) : Prop :=
  exists pre post, s = pre +:+ sub +:+ post.

(** The [destinations] field of the data model: absent, a lone string or a
    sequence. *)
Inductive Destinations : Type :=
| Absent
| Lone (s : string)
| Sequence (xs : list value).

(** "If it is a single string, treat as a one-element sequence; if absent,
    treat as empty sequence." *)
Definition normalize (d : Destinations) : list value :=
  match d with
  | Absent => []
  | Lone s => [VStr s]
  | Sequence xs => xs
  end.

(** The decision rule, in order, first match wins. *)
Inductive picks (dests : list value) (relocationType : string) : string -> Prop :=
| picks_panama :
    VStr "panama" ∈ dests ->
    picks dests relocationType "Panama"
| picks_belize :
    VStr "panama" ∉ dests -> VStr "belize" ∈ dests ->
    picks dests relocationType "Belize"
| picks_work :
    VStr "panama" ∉ dests -> VStr "belize" ∉ dests ->
    contains relocationType "work" ->
    picks dests relocationType "Panama"
| picks_default :
    VStr "panama" ∉ dests -> VStr "belize" ∉ dests ->
    ~ contains relocationType "work" ->
    picks dests relocationType "Costa Rica".

(** Answers whose [destinations] and [relocationType] fields are as the data
    model has them; an absent field reads as [undefined]. *)
Definition destinations_is (answers : value) (d : Destinations) : Prop :=
  JS.field answers "destinations" =
    match d with
    | Absent => VUndef
    | Lone s => VStr s
    | Sequence xs => VArr xs
    end.

Definition relocationType_is (answers : value) (r : option string) : Prop :=
  JS.field answers "relocationType" = from_option VStr VUndef r.

(** The literal lookup table for [cities] by picked country. *)
Definition city_names (country : string) : list string :=
  if String.eqb country "Costa Rica" then ["San José"; "Guanacaste"; "La Fortuna"]
  else if String.eqb country "Panama" then ["Panama City"; "Boquete"; "David"]
  else if String.eqb country "Belize" then ["Belize City"; "San Pedro"; "Caye Caulker"]
  else [].

Definition city_reasons : list string :=
  [ "Main hub with services"; "Popular expat/retirement spot"; "Leisure and nature options" ].

Definition city_table (country : string) : list value :=
  zip_with (fun name reason => VObj [("name", VStr name); ("reason", VStr reason)])
    (city_names country) city_reasons.

Definition countries : list string := ["Costa Rica"; "Panama"; "Belize"].

(** The number of entries of the [cities] field of a body, when it is a
    sequence. *)
Definition cities_count (payload : value) : option nat :=
  match JS.field payload "cities" with
  | VArr xs => Some (length xs)
  | _ => None
  end.

(** The answers on which the fallback cannot finish its pick: no destination
    is panama or belize, and [relocationType] is truthy without being a
    string or an array (a number other than zero, [true], an object). *)
Definition pick_throws (answers : value) : bool :=
  let destinations := JS.field answers "destinations" in
  let dests :=
    match destinations with
    | VArr xs => xs
    | _ => if JS.truthy destinations then [destinations] else []
    end in
  negb (JS.array_includes dests "panama") &&
  negb (JS.array_includes dests "belize") &&
  match JS.field answers "relocationType" with
  | VNum x => JS.truthy (VNum x)
  | VBool b => b
  | VObj _ => true
  | _ => false
  end.

(** The five sources of the credential, in order: for each, the trimmed
    text found there, if any.  A variable that is not set, a file that
    cannot be read and a file variable that names no path give nothing. *)
Definition file_named_by (w : World) (variable : string) : option string :=
  p ← env w !! variable;
  if Str.nonempty p then files w !! p else None.

Definition candidates (w : World) : list (option string) :=
  [ Str.trim <$> env w !! "OPENAI_API_KEY";
    Str.trim <$> env w !! "OPEN_AI_KEY";
    Str.trim <$> file_named_by w "OPEN_AI_KEY_FILE";
    Str.trim <$> files w !! "./OPEN_AI_KEY";
    Str.trim <$> files w !! "/run/secrets/OPEN_AI_KEY" ].

(** A candidate that counts: it is there and it is not empty. *)
Definition usable (o : option string) : option string :=
  match o with
  | Some s => if Str.nonempty s then Some s else None
  | None => None
  end.

(** "First non-empty match wins." *)
Fixpoint first_nonempty (l : list (option string)) : option string :=
  match l with
  | [] => None
  | Some s :: rest => if Str.nonempty s then Some s else first_nonempty rest
  | None :: rest => first_nonempty rest
  end.

Definition credential (w : World) : option string := first_nonempty (candidates w).

(** The fetch capability: the global one when present, the alternate
    implementation otherwise. *)
Definition fetch_capability (w : World) : option fetch_fn :=
  match global_fetch w with
  | Some f => Some f
  | None => match node_fetch w with Ok f => Some f | Throw _ => None end
  end.

(** The value at [choices[0].message.content] of an upstream body, when
    every step of that path is there. *)
Definition member (k : string) (v : value) : option value :=
  match v with
  | VObj kvs => JS.assoc k kvs
  | _ => None
  end.

Definition first_entry (v : value) : option value :=
  match v with
  | VArr xs => head xs
  | VObj kvs => JS.assoc "0" kvs
  | VStr s => VStr <$> JS.first_char s
  | _ => None
  end.

Definition content_at (j : value) : option value :=
  choices ← member "choices" j;
  choice ← first_entry choices;
  message ← member "message" choice;
  member "content" message.

(** The assistant content string of an upstream body: the string at that
    path, and the empty string when the path is absent.  Content of another
    type has no such string. *)
Definition assistant_string (j : value) : option string :=
  match content_at j with
  | Some (VStr s) => Some s
  | Some _ => None
  | None => Some EmptyString
  end.

(** The same request as [req], with a body the transport has parsed to
    [{answers: a}]. *)
Definition with_answers (req : Request) (a : value) : Request :=
  {| method := method req;
     body := VObj [("answers", a)];
     chunks := chunks req;
     finish := finish req |}.

(** The raw text of a request: its chunks, one after the other. *)
Definition raw_text (req : Request) : string := String.concat "" (chunks req).

(** The text handed to the JSON parser for assistant content [s]: from the
    first ['{'] on, or all of [s] when it has none. *)
Inductive json_text (s : string) : string -> Prop :=
| json_text_brace pre post :
    s = pre +:+ "{" +:+ post -> ~ contains pre "{" ->
    json_text s ("{" +:+ post)
| json_text_whole :
    ~ contains s "{" ->
    json_text s s.

Section Paths.
Context `{Builtins}.

(** A POST request on which the handler's constant [answers], that is
    [body.answers || {}], is evaluated without a throw and is [answers]. *)
Definition carries (req : Request) (answers : value) : Prop :=
  method req = "POST" /\
  exists b a, outcome (readJsonBody req) = Ok b /\
              JS.prop b "answers" = Ok a /\
              answers = JS.or_else a (VObj []).

(** The request takes the upstream path and the upstream answers it with
    [resp]. *)
Definition upstream_answers (w : World) (req : Request) (resp : response) : Prop :=
  exists answers key fetchFn,
    carries req answers /\
    credential w = Some key /\
    fetch_capability w = Some fetchFn /\
    fetchFn completions_url (completions_init key answers) = Ok resp.

(** The branch the handler takes once the body is read and the key is
    resolved. *)
Definition branch (w : World) (answers : value) : M unit :=
  match credential w with
  | None => fallback answers
  | Some key => upstream w key answers
  end.

End Paths.

(** ** Concrete worlds and requests *)

Module Sample.

Definition no_node_fetch : result fetch_fn :=
  Throw (Error "Cannot find package 'node-fetch'").

(** No key anywhere, no fetch. *)
Definition bare : World :=
  {| env := ∅; files := ∅; global_fetch := None; node_fetch := no_node_fetch |}.

(** A key in the second variable and an upstream that always answers
    [resp]. *)
Definition keyed (resp : result response) : World :=
  {| env := {[ "OPEN_AI_KEY" := " sk-test " ]};
     files := ∅;
     global_fetch := Some (fun _ _ => resp);
     node_fetch := no_node_fetch |}.

Definition post (text : string) : Request :=
  {| method := "POST"; body := VUndef; chunks := [text]; finish := StreamEnd |}.

Definition post_parsed (b : value) : Request :=
  {| method := "POST"; body := b; chunks := []; finish := StreamEnd |}.

Definition get : Request :=
  {| method := "GET"; body := VUndef; chunks := []; finish := StreamEnd |}.

(** The body of a chat completion whose assistant message is [content]. *)
Definition completion (content : string) : string :=
  "{" +:+ dq +:+ "choices" +:+ dq +:+ ":[{" +:+ dq +:+ "message" +:+ dq +:+ ":{"
  +:+ dq +:+ "role" +:+ dq +:+ ":" +:+ dq +:+ "assistant" +:+ dq +:+ ","
  +:+ dq +:+ "content" +:+ dq +:+ ":" +:+ Ref.quote content +:+ "}}]}".

End Sample.

(** ** Further vocabulary for the properties *)

Definition is_import (e : event) : bool :=
  match e with Import _ => true | _ => false end.

Definition is_console (e : event) : bool :=
  match e with Console _ _ => true | _ => false end.

Definition is_file_read (e : event) : bool :=
  match e with ReadFile _ => true | _ => false end.

(** The body of the 500 response of the outer [catch] for the error
    [err]. *)
Definition server_error (err : exn) : value :=
  VObj [ ("error", VStr "Server error"); ("message", VStr (String_exn err)) ].

(** The error [getFetch] throws when the import fails with [err]. *)
Definition no_fetch_error (err : exn) : exn :=
  Error ("No fetch available and node-fetch failed to import: " +:+ String_exn err).

(** The same request with another stream. *)
Definition with_stream (req : Request) (cs : list string) (fin : stream_end) : Request :=
  {| method := method req; body := body req; chunks := cs; finish := fin |}.

(** What follows the call of [fetch]: the [try] body from line 124 on, under
    the outer [catch]. *)
Definition after_fetch `{Builtins} (r : result response) : M unit :=
  try_catch (resp ← lift r; handle_response resp)
    (fun err =>
       emit (Console "error" "Server error in recommend function:");;
       emit (Status 500);;
       emit (Json (server_error err))).

(** Assistant content on which [assistant.indexOf] is not a function: a
    number other than zero, [true], an object. *)
Definition lacks_indexOf (c : value) : bool :=
  match c with
  | VNum _ | VBool _ | VObj _ => JS.truthy c
  | _ => false
  end.

(** A world with a key in the first variable and no fetch at all. *)
Definition keyed_without_fetch : World :=
  {| env := {[ "OPENAI_API_KEY" := "sk-env" ]};
     files := ∅;
     global_fetch := None;
     node_fetch := Sample.no_node_fetch |}.

(** A world with a key in a local file, no global fetch, and an importable
    fetch that always resolves to [r]. *)
Definition keyed_by_file (r : result response) : World :=
  {| env := ∅;
     files := {[ "./OPEN_AI_KEY" := "sk-local" +:+ nl ]};
     global_fetch := None;
     node_fetch := Ok (fun _ _ => r) |}.

(** The body of a chat completion whose assistant content is the number
    42. *)
Definition numeric_completion : string :=
  "{ " +:+ dq +:+ "choices" +:+ dq +:+ ": [ { " +:+ dq +:+ "message" +:+ dq +:+ ": { "
  +:+ dq +:+ "content" +:+ dq +:+ ": 42 } } ] }".

Definition is_stream_read (e : event) : bool :=
  match e with ReadStream => true | _ => false end.

(** * Properties *)

(** ** Strings *)

Lemma prefix_spec (sub s : string) :
  String.prefix sub s = true <-> exists post, s = sub +:+ post.
Proof.
  revert s. induction sub as [|a sub IH]; intros s; simpl.
  - split; [intros _; by exists s | by destruct s].
  - destruct s as [|b s]; simpl.
    + split; [done | intros [post Hpost]; discriminate].
    + destruct (ascii_dec a b) as [->|Hne].
      * rewrite IH. split; intros [post Hpost]; exists post.
        -- by subst.
        -- simpl in Hpost. by injection Hpost.
      * split; [done | intros [post Hpost]].
        simpl in Hpost. by injection Hpost.
Qed.

Lemma contains_here (sub post : string) : contains (sub +:+ post) sub.
Proof. by exists EmptyString, post. Qed.

Lemma contains_later (c : ascii) (s sub : string) :
  contains s sub -> contains (String c s) sub.
Proof. intros (pre & post & ->). by exists (String c pre), post. Qed.

Lemma contains_inv (c : ascii) (s sub : string) :
  contains (String c s) sub ->
  String.prefix sub (String c s) = true \/ contains s sub.
Proof.
  intros ([|a pre] & post & Heq).
  - left. apply prefix_spec. by exists post.
  - right. simpl in Heq. injection Heq as _ ->. by exists pre, post.
Qed.

(** [s.includes(sub)] holds exactly when [sub] occurs in [s]. *)
Lemma string_includes_spec (s sub : string) :
  JS.string_includes s sub = true <-> contains s sub.
Proof.
  induction s as [|c s IH].
  - cbn [JS.string_includes]. rewrite orb_false_r, prefix_spec. split.
    + intros [post ->]. apply contains_here.
    + intros ([|a pre] & post & Heq); [by exists post | discriminate].
  - cbn [JS.string_includes]. rewrite orb_true_iff, IH. split.
    + intros [Hp | Hc]; [|by apply contains_later].
      apply prefix_spec in Hp as [post ->]. apply contains_here.
    + apply contains_inv.
Qed.

Lemma string_includes_false (s sub : string) :
  JS.string_includes s sub = false <-> ~ contains s sub.
Proof.
  rewrite <- string_includes_spec. by destruct (JS.string_includes s sub).
Qed.

Lemma string_indexOf_includes (s sub : string) :
  JS.string_indexOf s sub = None <-> JS.string_includes s sub = false.
Proof.
  induction s as [|c s IH]; cbn [JS.string_indexOf JS.string_includes];
    destruct (String.prefix sub _); cbn [orb]; try done.
  rewrite <- IH. by destruct (JS.string_indexOf s sub).
Qed.

(** [s.indexOf(sub)] is [-1] exactly when [sub] does not occur in [s]. *)
Lemma string_indexOf_None (s sub : string) :
  JS.string_indexOf s sub = None <-> ~ contains s sub.
Proof. by rewrite string_indexOf_includes, string_includes_false. Qed.

Lemma prefix_char (b c : ascii) (q : string) :
  String.prefix (String b EmptyString) (String c q) = true <-> b = c.
Proof.
  simpl. destruct (ascii_dec b c); [|done]. by destruct q.
Qed.

Lemma string_indexOf_cons (c : ascii) (s sub : string) :
  JS.string_indexOf (String c s) sub =
    if String.prefix sub (String c s) then Some 0%nat
    else S <$> JS.string_indexOf s sub.
Proof. done. Qed.

(** In [pre ++ b ++ post], with no character [b] in [pre], [indexOf] finds
    that [b] and [slice] starts there. *)
Lemma string_indexOf_first (pre post : string) (b : ascii) :
  ~ contains pre (String b EmptyString) ->
  exists start,
    JS.string_indexOf (pre +:+ String b post) (String b EmptyString) = Some start /\
    JS.string_slice (pre +:+ String b post) start = String b post.
Proof.
  intros Hpre. induction pre as [|c pre IH].
  - exists 0%nat. split; [|done].
    change (EmptyString +:+ String b post) with (String b post).
    by rewrite string_indexOf_cons, (proj2 (prefix_char b b post) eq_refl).
  - destruct IH as (start & Hi & Hs).
    { intros Hc. apply Hpre. by apply contains_later. }
    exists (S start). split; [|done].
    change (String c pre +:+ String b post) with (String c (pre +:+ String b post)).
    rewrite string_indexOf_cons.
    destruct (String.prefix _ _) eqn:Hp.
    + apply prefix_char in Hp as ->. exfalso. apply Hpre.
      by exists EmptyString, pre.
    + by rewrite Hi.
Qed.

(** The text the handler parses is the one the specification names. *)
Lemma json_text_code (s t : string) :
  json_text s t ->
  match JS.string_indexOf s "{" with
  | Some start => JS.string_slice s start
  | None => s
  end = t.
Proof.
  intros [pre post -> Hpre | Hs].
  - destruct (string_indexOf_first pre post "{"%char Hpre) as (start & Hi & Hs).
    change (pre +:+ "{" +:+ post) with (pre +:+ String "{"%char post).
    by rewrite Hi.
  - apply string_indexOf_None in Hs. by rewrite Hs.
Qed.

(** Every content has such a text. *)
Lemma json_text_total (s : string) : exists t, json_text s t.
Proof.
  destruct (JS.string_includes s "{") eqn:Hin.
  - apply string_includes_spec in Hin.
    induction s as [|c s IH].
    + destruct Hin as ([|a pre] & post & Heq); discriminate.
    + destruct (ascii_dec "{"%char c) as [<-|Hne].
      * exists ("{" +:+ s). apply (json_text_brace _ EmptyString s); [done|].
        intros ([|a pre] & post & Heq); discriminate.
      * apply contains_inv in Hin as [Hp | Hc].
        { by apply prefix_char in Hp. }
        destruct (IH Hc) as [t Ht]. exists t.
        destruct Ht as [pre post -> Hpre | Hno].
        -- apply (json_text_brace _ (String c pre) post); [done|].
           intros Hc'. apply contains_inv in Hc' as [Hp | Hc']; [|done].
           by apply prefix_char in Hp.
        -- exfalso. by apply Hno.
  - exists s. apply json_text_whole. by apply string_includes_false.
Qed.

(** ** Traces *)

Lemma responses_from_quiet (code : Z) (t1 t2 : list event) :
  forallb quiet t1 = true ->
  responses_from code (t1 ++ t2) = responses_from code t2.
Proof.
  induction t1 as [|e t1 IH]; [done|]. cbn [forallb]. intros [He Ht]%andb_true_iff.
  destruct e; try done; by apply IH.
Qed.

Lemma responses_quiet (t1 t2 : list event) :
  forallb quiet t1 = true -> responses (t1 ++ t2) = responses t2.
Proof. apply responses_from_quiet. Qed.

Lemma filter_fetch_quiet (t : list event) :
  forallb (fun e => quiet e && negb (is_fetch e)) t = true ->
  List.filter is_fetch t = [].
Proof.
  induction t as [|e t IH]; [done|]. cbn [forallb List.filter].
  intros [[He Hf]%andb_true_iff Ht]%andb_true_iff.
  destruct (is_fetch e); [done | by apply IH].
Qed.

(** ** The credential resolver *)

Lemma first_nonempty_cons (o : option string) (rest : list (option string)) :
  first_nonempty (o :: rest) =
    match usable o with
    | Some s => Some s
    | None => first_nonempty rest
    end.
Proof. destruct o as [s|]; [|done]. cbn. by destruct (Str.nonempty s). Qed.

Lemma usable_nonempty (o : option string) (k : string) :
  usable o = Some k -> Str.nonempty k = true.
Proof.
  destruct o as [s|]; [|done]. cbn. destruct (Str.nonempty s) eqn:Hs; [|done].
  by intros [= <-].
Qed.

Lemma truthy_key_usable (o : option string) :
  truthy_key (usable o) = bool_decide (is_Some (usable o)).
Proof.
  destruct (usable o) as [k|] eqn:Hk; cbn.
  - by rewrite (usable_nonempty _ _ Hk).
  - done.
Qed.

Lemma first_nonempty_nonempty (l : list (option string)) (k : string) :
  first_nonempty l = Some k -> Str.nonempty k = true.
Proof.
  induction l as [|o l IH]; [done|]. rewrite first_nonempty_cons.
  destruct (usable o) eqn:Ho; [|done]. intros [= <-]. by eapply usable_nonempty.
Qed.

Lemma trim_empty : Str.trim EmptyString = EmptyString.
Proof. done. Qed.

Section Resolver.
Context `{Builtins}.
Variable w : World.

Lemma env_key_spec (name : string) :
  env_key w name = usable (Str.trim <$> env w !! name).
Proof.
  unfold env_key. destruct (env w !! name) as [s|]; [|done]. cbn.
  destruct (Str.nonempty s) eqn:Hs; [done|].
  apply negb_false_iff, String.eqb_eq in Hs as ->. by rewrite trim_empty.
Qed.

Lemma tryReadFileSync_spec (path : string) :
  tryReadFileSync w path = ([ReadFile path], Ok (usable (Str.trim <$> files w !! path))).
Proof.
  unfold tryReadFileSync. destruct (files w !! path) as [content|]; [|done]. cbn.
  by destruct (Str.nonempty (Str.trim content)).
Qed.

(** [getApiKey] returns what the resolution order of the specification
    gives, it never throws, and all it does is read files. *)
Lemma getApiKey_spec :
  outcome (getApiKey w) = Ok (credential w) /\
  forallb (fun e => quiet e && negb (is_fetch e)) (trace (getApiKey w)) = true.
Proof.
  unfold getApiKey, credential, candidates.
  rewrite !first_nonempty_cons, <- !env_key_spec.
  destruct (env_key w "OPENAI_API_KEY"); [done|].
  destruct (env_key w "OPEN_AI_KEY"); [done|].
  unfold file_named_by.
  destruct (env w !! "OPEN_AI_KEY_FILE") as [p|]; cbn [mbind option_bind];
    [destruct (Str.nonempty p)|];
    rewrite !tryReadFileSync_spec; cbn -[usable];
    rewrite ?truthy_key_usable;
    repeat (destruct (usable _); cbn -[usable]; try done).
Qed.

End Resolver.

(** ** The fallback decision rule *)

Lemma same_as_string_spec (s : string) (v : value) :
  JS.same_as_string s v = true <-> v = VStr s.
Proof.
  destruct v; cbn; rewrite ?String.eqb_eq; split; intros Heq;
    by (discriminate || congruence).
Qed.

(** [xs.includes(s)] holds exactly when the string [s] is an element. *)
Lemma array_includes_spec (xs : list value) (s : string) :
  JS.array_includes xs s = true <-> VStr s ∈ xs.
Proof.
  unfold JS.array_includes. rewrite existsb_exists. split.
  - intros (v & Hv%list_elem_of_In & ->%same_as_string_spec). done.
  - intros Hin. exists (VStr s). split; [by apply list_elem_of_In|].
    by apply same_as_string_spec.
Qed.

Lemma array_includes_false (xs : list value) (s : string) :
  JS.array_includes xs s = false <-> VStr s ∉ xs.
Proof.
  rewrite <- array_includes_spec. by destruct (JS.array_includes xs s).
Qed.

Lemma or_else_not_nullish (a : value) : JS.nullish (JS.or_else a (VObj [])) = false.
Proof.
  unfold JS.or_else. destruct (JS.truthy a) eqn:Ht; [by destruct a | done].
Qed.

Lemma prop_not_nullish (v : value) (k : string) :
  JS.nullish v = false -> JS.prop v k = Ok (JS.field v k).
Proof. by destruct v. Qed.

Section Fallback.
Context `{Builtins}.

(** The sequence the handler builds from [answers.destinations] has the
    non-empty strings of the normalized sequence of the specification. *)
Lemma dests_includes (destinations : value) (d : Destinations) (s : string) :
  s <> EmptyString ->
  destinations = match d with Absent => VUndef | Lone t => VStr t | Sequence xs => VArr xs end ->
  JS.array_includes
    match destinations with
    | VArr xs => xs
    | _ => if JS.truthy destinations then [destinations] else []
    end s
  = JS.array_includes (normalize d) s.
Proof.
  intros Hs ->. destruct d as [|t|xs]; cbn; try done.
  destruct (String.eqb t "") eqn:Ht; cbn; [|done].
  apply String.eqb_eq in Ht as ->.
  rewrite orb_false_r. symmetry. apply String.eqb_neq. congruence.
Qed.

(** On answers shaped as the data model has them, the handler picks the
    country the decision rule of the specification names. *)
Lemma pick_country_spec (answers : value) (d : Destinations) (r : option string) :
  JS.nullish answers = false ->
  destinations_is answers d ->
  relocationType_is answers r ->
  exists country,
    pick_country answers = Ok country /\
    picks (normalize d) (default EmptyString r) country.
Proof.
  intros Hn Hd Hr. unfold pick_country.
  rewrite !prop_not_nullish by done.
  rewrite (dests_includes _ d "panama"), (dests_includes _ d "belize") by done.
  destruct (JS.array_includes (normalize d) "panama") eqn:Hp.
  { exists "Panama". split; [done|]. apply picks_panama. by apply array_includes_spec. }
  destruct (JS.array_includes (normalize d) "belize") eqn:Hb.
  { exists "Belize". split; [done|].
    apply picks_belize; [by apply array_includes_false | by apply array_includes_spec]. }
  apply array_includes_false in Hp, Hb.
  rewrite Hr. destruct r as [s|]; cbn.
  - unfold JS.or_else. cbn. destruct (String.eqb s "") eqn:Hs; cbn.
    + apply String.eqb_eq in Hs as ->. exists "Costa Rica". split; [done|].
      apply picks_default; try done.
      intros ([|a pre] & post & Heq); discriminate.
    + rewrite Hs. cbn. destruct (JS.string_includes s "work") eqn:Hw.
      * exists "Panama". split; [done|]. apply picks_work; try done.
        by apply string_includes_spec.
      * exists "Costa Rica". split; [done|]. apply picks_default; try done.
        by apply string_includes_false.
  - exists "Costa Rica". split; [done|]. apply picks_default; try done.
    intros ([|a pre] & post & Heq); discriminate.
Qed.

(** The decision rule names one country only. *)
Lemma picks_unique (dests : list value) (rel c1 c2 : string) :
  picks dests rel c1 -> picks dests rel c2 -> c1 = c2.
Proof. intros [] []; done. Qed.

(** Whatever [destinations] holds, the pick succeeds when
    [relocationType] is a string or is absent, with one of the three
    countries. *)
Lemma pick_country_total (answers : value) (r : option string) :
  JS.nullish answers = false ->
  relocationType_is answers r ->
  exists country, pick_country answers = Ok country /\ country ∈ countries.
Proof.
  intros Hn Hr. unfold pick_country, countries.
  rewrite !prop_not_nullish by done. rewrite Hr.
  repeat match goal with
         | |- context [if ?b then _ else _] => destruct b
         end; try (eexists; split; [done | set_solver]).
  all: destruct r as [s|]; cbn in *; try done.
  all: unfold JS.or_else in *; cbn in *.
  all: repeat match goal with
         | |- context [if ?b then _ else _] => destruct b; cbn
         | _ : context [if ?b then _ else _] |- _ => destruct b; cbn in *
         end; try done; try (eexists; split; [done | set_solver]).
Qed.

Lemma fallback_ok (answers : value) (country : string) :
  pick_country answers = Ok country ->
  fallback answers =
    ([ Console "warn" "No OpenAI key found; returning fallback recommendation for debugging.";
       Status 200;
       Json (fallback_body country) ], Ok tt).
Proof. intros Hp. unfold fallback. by rewrite Hp. Qed.

Lemma fallback_throw (answers : value) (e : exn) :
  pick_country answers = Throw e ->
  fallback answers =
    ([ Console "warn" "No OpenAI key found; returning fallback recommendation for debugging." ],
     Throw e).
Proof. intros Hp. unfold fallback. by rewrite Hp. Qed.

(** The body the fallback sends, field by field. *)
Lemma fallback_body_fields (country : string) :
  country ∈ countries ->
  JS.field (fallback_body country) "country" = VStr country /\
  JS.field (fallback_body country) "score" = VNum 75 /\
  JS.field (fallback_body country) "reasons" =
    VArr [ VStr ("Based on your selections, " +:+ country
                 +:+ " aligns best with your priorities.");
           VStr "Good balance of lifestyle, services, and accessibility for your needs." ] /\
  JS.field (fallback_body country) "cities" = VArr (city_table country).
Proof.
  unfold countries. rewrite !elem_of_cons, elem_of_nil.
  intros [-> | [-> | [-> | []]]]; done.
Qed.

Lemma fallback_body_cities (country : string) :
  cities_count (fallback_body country) = Some 3%nat.
Proof. done. Qed.

End Fallback.

(** ** The handler, branch by branch *)

Lemma silent_app (t1 t2 : list event) : silent t1 -> silent t2 -> silent (t1 ++ t2).
Proof. unfold silent. rewrite forallb_app. by intros -> ->. Qed.

Lemma silent_quiet (t : list event) : silent t -> forallb quiet t = true.
Proof.
  unfold silent. induction t as [|e t IH]; [done|]. cbn [forallb].
  intros [[He _]%andb_true_iff Ht]%andb_true_iff. rewrite He. by apply IH.
Qed.

Lemma silent_responses (t1 t2 : list event) :
  silent t1 -> responses (t1 ++ t2) = responses t2.
Proof. intros Hs. by apply responses_quiet, silent_quiet. Qed.

Lemma silent_headers (t1 t2 : list event) :
  silent t1 -> headers (t1 ++ t2) = headers t2.
Proof.
  unfold silent, headers. induction t1 as [|e t1 IH]; [done|]. cbn [forallb].
  intros [[He _]%andb_true_iff Ht]%andb_true_iff. destruct e; try done; by apply IH.
Qed.

Lemma silent_fetches (t1 t2 : list event) :
  silent t1 -> List.filter is_fetch (t1 ++ t2) = List.filter is_fetch t2.
Proof.
  intros Hs. rewrite List.filter_app, (filter_fetch_quiet t1); done.
Qed.

Section Branches.
Context `{Builtins}.
Variable w : World.

(** Reading the body never throws and sends nothing. *)
Lemma readJsonBody_total (req : Request) :
  exists b, outcome (readJsonBody req) = Ok b /\ silent (trace (readJsonBody req)).
Proof.
  unfold readJsonBody.
  destruct (JS.truthy (body req) && JS.has_keys (body req)); [by eexists|].
  destruct (finish req); [|by eexists].
  destruct (JSON_parse _); by eexists.
Qed.

Lemma getFetch_capability (f : fetch_fn) :
  fetch_capability w = Some f ->
  outcome (getFetch w) = Ok f /\ silent (trace (getFetch w)).
Proof.
  unfold fetch_capability, getFetch.
  destruct (global_fetch w); [by intros [= ->]|].
  destruct (node_fetch w); by intros [= ->].
Qed.

Lemma handler_branch (req : Request) (answers : value) :
  carries req answers ->
  exists t, silent t /\
    handler w req = (t ++ trace (branch w answers), outcome (branch w answers)).
Proof.
  intros (Hm & b & a & Hb & Ha & ->).
  destruct (readJsonBody_total req) as (b' & Hb' & Hs1).
  destruct (getApiKey_spec w) as [Hk Hs2].
  assert (forall key, credential w = Some key -> truthy_key (Some key) = true)
    as Hne by (intros key Hc; apply (first_nonempty_nonempty _ _ Hc)).
  unfold handler, branch. rewrite Hm. cbn [String.eqb Ascii.eqb Bool.eqb negb].
  destruct (readJsonBody req) as [t1 r1]. cbn [outcome trace fst snd] in Hb, Hs1. subst r1.
  destruct (getApiKey w) as [t2 r2]. cbn [outcome trace fst snd] in Hk, Hs2. subst r2.
  exists (t1 ++ t2). split; [by apply silent_app|].
  destruct (credential w) as [key|].
  - cbn -[truthy_key upstream]. rewrite Ha. cbn -[truthy_key upstream].
    rewrite (Hne key eq_refl). cbn -[upstream].
    destruct (upstream w key _) as [t3 r3]. cbn. by rewrite (assoc _ t1).
  - cbn -[fallback]. rewrite Ha. cbn -[fallback].
    destruct (fallback _) as [t3 r3]. cbn. by rewrite (assoc _ t1).
Qed.

(** A request that is not a POST. *)
Lemma handler_not_post (req : Request) :
  method req <> "POST" ->
  handler w req =
    ([ SetHeader "Allow" "POST"; Status 405;
       Json (VObj [("error", VStr "Method not allowed. Use POST.")]) ], Ok tt).
Proof.
  intros Hm. unfold handler. apply String.eqb_neq in Hm. by rewrite Hm.
Qed.

(** The fallback branch when the pick succeeds. *)
Lemma handler_fallback (req : Request) (answers : value) (country : string) :
  carries req answers ->
  credential w = None ->
  pick_country answers = Ok country ->
  responses (trace (handler w req)) = [(200, fallback_body country)] /\
  List.filter is_fetch (trace (handler w req)) = [] /\
  outcome (handler w req) = Ok tt.
Proof.
  intros Hc Hk Hp. destruct (handler_branch req answers Hc) as (t & Hs & ->).
  unfold branch. rewrite Hk, (fallback_ok _ _ Hp). cbn [trace outcome fst snd].
  by rewrite silent_responses, silent_fetches.
Qed.

(** The upstream branch up to the response of the upstream. *)
Lemma handler_upstream (req : Request) (resp : response) :
  upstream_answers w req resp ->
  exists t key answers,
    List.filter is_fetch t = [Fetch completions_url (completions_init key answers)] /\
    forallb quiet t = true /\
    let m := try_catch (handle_response resp)
               (fun err =>
                  emit (Console "error" "Server error in recommend function:");;
                  emit (Status 500);;
                  emit (Json (VObj [ ("error", VStr "Server error");
                                     ("message", VStr (String_exn err)) ]))) in
    handler w req = (t ++ trace m, outcome m).
Proof.
  intros (answers & key & f & Hc & Hk & Hf & Hr).
  destruct (handler_branch req answers Hc) as (t & Hs & ->).
  destruct (getFetch_capability f Hf) as [Hg Hs'].
  unfold branch, upstream. rewrite Hk.
  destruct (getFetch w) as [t' r']. cbn [outcome trace fst snd] in Hg, Hs'. subst r'.
  exists (t ++ t' ++ [Fetch completions_url (completions_init key answers)]), key, answers.
  split; [|split].
  - rewrite silent_fetches, silent_fetches; done.
  - by rewrite !forallb_app, (silent_quiet t), (silent_quiet t').
  - cbn. rewrite Hr. cbn.
    destruct (handle_response resp) as [t3 [[]|e]]; cbn.
    + by rewrite <- !(assoc _).
    + by rewrite <- !(assoc _).
Qed.

End Branches.

(** ** The claims *)

(** C9. For every request whose method is not POST the handler sets the
    response header Allow to POST and answers with status 405 and the body
    [{error: 'Method not allowed. Use POST.'}].  These three events are all
    it does, whatever the world: the body is not read, no credential is
    looked up and nothing is fetched. *)
Theorem non_post_is_405 `{Builtins} (w : World) (req : Request) :
  method req <> "POST" ->
  handler w req =
    ([ SetHeader "Allow" "POST"; Status 405;
       Json (VObj [("error", VStr "Method not allowed. Use POST.")]) ], Ok tt) /\
  responses (trace (handler w req)) =
    [(405, VObj [("error", VStr "Method not allowed. Use POST.")])] /\
  headers (trace (handler w req)) = [("Allow", "POST")] /\
  List.filter is_input (trace (handler w req)) = [].
Proof.
  intros Hm. by rewrite (handler_not_post w req Hm).
Qed.

Lemma non_post_is_405_witness :
  responses (trace (@handler Ref.builtins (Sample.keyed (Throw (Error "unreachable"))) Sample.get)) =
    [(405, VObj [("error", VStr "Method not allowed. Use POST.")])] /\
  headers (trace (@handler Ref.builtins (Sample.keyed (Throw (Error "unreachable"))) Sample.get)) =
    [("Allow", "POST")].
Proof.
  destruct (@non_post_is_405 Ref.builtins (Sample.keyed (Throw (Error "unreachable"))) Sample.get)
    as (_ & Hr & Hh & _).
  - discriminate.
  - exact (conj Hr Hh).
Defined.

Lemma first_nonempty_None (l : list (option string)) :
  first_nonempty l = None <-> Forall (fun c => c = None \/ c = Some EmptyString) l.
Proof.
  induction l as [|c l IH]; [by split|]. rewrite Forall_cons, <- IH.
  destruct c as [s|]; cbn [first_nonempty].
  - unfold Str.nonempty. destruct (String.eqb s "") eqn:Hs; cbn [negb].
    + apply String.eqb_eq in Hs as ->.
      split; [intros Hl; split; [by right | done] | by intros [_ Hl]].
    + apply String.eqb_neq in Hs.
      split; [done | intros [[Hc | Hc] _]; congruence].
  - split; [intros Hl; split; [by left | done] | by intros [_ Hl]].
Qed.

(** [first_nonempty] returns the candidate at the least position that holds
    a non-empty text. *)
Lemma first_nonempty_first (l : list (option string)) (k : string) :
  first_nonempty l = Some k <->
  k <> EmptyString /\
  exists i, l !! i = Some (Some k) /\
    forall j c, (j < i)%nat -> l !! j = Some c -> c = None \/ c = Some EmptyString.
Proof.
  induction l as [|c l IH].
  - split; [done | by intros (_ & i & Hi & _)].
  - rewrite first_nonempty_cons. destruct (usable c) as [s|] eqn:Hc.
    + destruct c as [s'|]; [|done]. cbn in Hc.
      destruct (Str.nonempty s') eqn:Hs; [|done]. injection Hc as ->.
      assert (s <> EmptyString) as Hne
        by (intros ->; discriminate Hs).
      split.
      * intros [= <-]. split; [done|]. exists 0%nat. split; [done|]. lia.
      * intros (_ & [|i] & Hi & Hbefore).
        -- by injection Hi as ->.
        -- destruct (Hbefore 0%nat (Some s) ltac:(lia) eq_refl) as [Hx | Hx];
             congruence.
    + assert (c = None \/ c = Some EmptyString) as Hc'.
      { destruct c as [s'|]; [|by left]. cbn in Hc. unfold Str.nonempty in Hc.
        right. destruct (String.eqb s' "") eqn:Hs; [|done].
        by apply String.eqb_eq in Hs as ->. }
      rewrite IH. split; intros (Hne & i & Hi & Hbefore); (split; [done|]).
      * exists (S i). split; [done|]. intros [|j] c' Hj Hc''.
        -- by injection Hc'' as <-.
        -- apply (Hbefore j); [lia | done].
      * destruct i as [|i].
        -- injection Hi as ->. destruct Hc' as [Hx | Hx]; congruence.
        -- exists i. split; [done|]. intros j c' Hj Hc''.
           apply (Hbefore (S j)); [lia | done].
Qed.

(** C7. The credential resolver returns the first non-empty trimmed value
    among, in this order, the variable OPENAI_API_KEY, the variable
    OPEN_AI_KEY, the file named by OPEN_AI_KEY_FILE, the file ./OPEN_AI_KEY
    and the file /run/secrets/OPEN_AI_KEY: a key [k] is returned exactly when
    some source holds the non-empty text [k] once trimmed and every source
    before it is missing, unreadable or empty.  The not-found signal is
    returned exactly when this is so of all five, and the resolver never
    throws. *)
Theorem getApiKey_resolution_order (w : World) :
  outcome (getApiKey w) = Ok (credential w) /\
  candidates w =
    [ Str.trim <$> env w !! "OPENAI_API_KEY";
      Str.trim <$> env w !! "OPEN_AI_KEY";
      Str.trim <$> file_named_by w "OPEN_AI_KEY_FILE";
      Str.trim <$> files w !! "./OPEN_AI_KEY";
      Str.trim <$> files w !! "/run/secrets/OPEN_AI_KEY" ] /\
  (forall k, credential w = Some k <->
     k <> EmptyString /\
     exists i, candidates w !! i = Some (Some k) /\
       forall j c, (j < i)%nat -> candidates w !! j = Some c ->
                   c = None \/ c = Some EmptyString) /\
  (credential w = None <->
   Forall (fun c => c = None \/ c = Some EmptyString) (candidates w)).
Proof.
  split; [apply getApiKey_spec | split; [done | split]].
  - intros k. apply first_nonempty_first.
  - apply first_nonempty_None.
Qed.

(** The response of the fallback path carries the country the decision rule
    names. *)
Lemma fallback_country_rule_aux `{Builtins} (w : World) (req : Request)
    (answers : value) (d : Destinations) (r : option string) :
  carries req answers ->
  credential w = None ->
  destinations_is answers d ->
  relocationType_is answers r ->
  exists country,
    picks (normalize d) (default EmptyString r) country /\
    responses (trace (handler w req)) = [(200, fallback_body country)].
Proof.
  intros Hc Hk Hd Hr.
  assert (JS.nullish answers = false) as Hn.
  { destruct Hc as (_ & b & a & _ & _ & ->). apply or_else_not_nullish. }
  destruct (pick_country_spec answers d r Hn Hd Hr) as (country & Hp & Hrule).
  exists country. split; [done|].
  by destruct (handler_fallback w req answers country Hc Hk Hp).
Qed.

(** C1. In the fallback path (a POST request, no credential resolved), on
    answers whose destinations are absent, a lone string or a sequence and
    whose relocationType is absent or a string, the country of the response
    is the one the decision rule names: Panama when the normalized
    destinations contain the element panama, otherwise Belize when they
    contain belize, otherwise Panama when the relocationType (empty by
    default) contains the substring work, otherwise Costa Rica. *)
Theorem fallback_country_rule `{Builtins} (w : World) (req : Request)
    (answers : value) (d : Destinations) (r : option string) :
  carries req answers ->
  credential w = None ->
  destinations_is answers d ->
  relocationType_is answers r ->
  exists country,
    picks (normalize d) (default EmptyString r) country /\
    responses (trace (handler w req)) = [(200, fallback_body country)] /\
    JS.field (fallback_body country) "country" = VStr country.
Proof.
  intros Hc Hk Hd Hr.
  destruct (fallback_country_rule_aux w req answers d r Hc Hk Hd Hr)
    as (country & Hrule & Hresp).
  by exists country.
Qed.

Lemma fallback_country_rule_witness :
  exists country,
    picks [VStr "belize"; VStr "panama"] "remote work" country /\
    responses (trace (@handler Ref.builtins Sample.bare
      (Sample.post_parsed
         (VObj [("answers",
                 VObj [ ("destinations", VArr [VStr "belize"; VStr "panama"]);
                        ("relocationType", VStr "remote work") ])])))) =
      [(200, fallback_body country)] /\
    JS.field (fallback_body country) "country" = VStr country.
Proof.
  apply (@fallback_country_rule Ref.builtins Sample.bare _
           (VObj [ ("destinations", VArr [VStr "belize"; VStr "panama"]);
                   ("relocationType", VStr "remote work") ])
           (Sequence [VStr "belize"; VStr "panama"]) (Some "remote work")).
  - split; [reflexivity|]. eexists _, _. repeat split; reflexivity.
  - reflexivity.
  - reflexivity.
  - reflexivity.
Defined.

(** C2 fails on the code: with no credential in any of the five sources, a
    POST request whose answers are [{relocationType: 5}] reaches
    [relocation.includes('work')] on line 74 with a number.  The handler
    throws a TypeError after the warning, outside the [try]: no response is
    sent, where the claim has status 200 and the Costa Rica recommendation. *)
Lemma fallback_throws_on_numeric_relocationType :
  credential Sample.bare = None /\
  @handler Ref.builtins Sample.bare
    (Sample.post_parsed (VObj [("answers", VObj [("relocationType", VNum 5)])])) =
    ([ ReadFile "./OPEN_AI_KEY"; ReadFile "/run/secrets/OPEN_AI_KEY";
       Console "warn" "No OpenAI key found; returning fallback recommendation for debugging." ],
     Throw (TypeError "relocation.includes is not a function")) /\
  responses (trace (@handler Ref.builtins Sample.bare
    (Sample.post_parsed (VObj [("answers", VObj [("relocationType", VNum 5)])])))) = [].
Proof. repeat split; reflexivity. Qed.

(** C10. The decision rule matches exactly and case-sensitively: when no
    element of the normalized destinations is the very string panama or the
    very string belize (elements such as Panama or PANAMA do not count), the
    first two rules do not fire, and the country is Panama only when the
    relocationType contains the very substring work (Work does not count),
    Costa Rica otherwise. *)
Theorem fallback_rule_is_case_sensitive `{Builtins} (w : World) (req : Request)
    (answers : value) (d : Destinations) (r : option string) :
  carries req answers ->
  credential w = None ->
  destinations_is answers d ->
  relocationType_is answers r ->
  VStr "panama" ∉ normalize d ->
  VStr "belize" ∉ normalize d ->
  (contains (default EmptyString r) "work" ->
   responses (trace (handler w req)) = [(200, fallback_body "Panama")]) /\
  (~ contains (default EmptyString r) "work" ->
   responses (trace (handler w req)) = [(200, fallback_body "Costa Rica")]) /\
  (r = Some "Work" ->
   responses (trace (handler w req)) = [(200, fallback_body "Costa Rica")]).
Proof.
  intros Hc Hk Hd Hr Hp Hb.
  destruct (fallback_country_rule_aux w req answers d r Hc Hk Hd Hr)
    as (country & Hrule & Hresp).
  assert (~ contains "Work" "work") as HWork
    by (apply string_includes_false; reflexivity).
  destruct Hrule as [Hin | _ Hin | _ _ Hw | _ _ Hw]; try done;
    (split; [|split]); intros Hx; subst; cbn in *; done.
Qed.

Lemma fallback_rule_is_case_sensitive_witness :
  responses (trace (@handler Ref.builtins Sample.bare
    (Sample.post_parsed
       (VObj [("answers",
               VObj [ ("destinations", VArr [VStr "Panama"; VStr "PANAMA"]);
                      ("relocationType", VStr "Work") ])])))) =
    [(200, fallback_body "Costa Rica")].
Proof.
  refine (proj2 (proj2
    (@fallback_rule_is_case_sensitive Ref.builtins Sample.bare _
       (VObj [ ("destinations", VArr [VStr "Panama"; VStr "PANAMA"]);
               ("relocationType", VStr "Work") ])
       (Sequence [VStr "Panama"; VStr "PANAMA"]) (Some "Work") _ _ _ _ _ _)) eq_refl).
  - split; [reflexivity|]. eexists _, _. repeat split; reflexivity.
  - reflexivity.
  - reflexivity.
  - reflexivity.
  - apply array_includes_false. reflexivity.
  - apply array_includes_false. reflexivity.
Defined.

(** C3, as amended.  Every 200 response of the fallback path (no credential
    resolved) has a [cities] field that is a sequence of exactly 3 entries.
    Nothing of the kind holds on the upstream path, where the body is what
    the model returned, or [{text: ...}]. *)
Theorem fallback_cities_three `{Builtins} (w : World) (req : Request) (payload : value) :
  credential w = None ->
  (200, payload) ∈ responses (trace (handler w req)) ->
  cities_count payload = Some 3%nat.
Proof.
  intros Hk Hin.
  destruct (String.eqb (method req) "POST") eqn:Hm.
  - apply String.eqb_eq in Hm.
    destruct (readJsonBody_total req) as (b & Hb & _).
    destruct (JS.prop b "answers") as [a|e] eqn:Ha.
    + assert (carries req (JS.or_else a (VObj []))) as Hc
        by (split; [done | by exists b, a]).
      destruct (handler_branch w req _ Hc) as (t & Hs & Heq).
      rewrite Heq in Hin. unfold branch in Hin. rewrite Hk in Hin.
      cbn [trace fst] in Hin. rewrite silent_responses in Hin by done.
      destruct (pick_country (JS.or_else a (VObj []))) as [country|e] eqn:Hp.
      * rewrite (fallback_ok _ _ Hp) in Hin. cbn in Hin.
        apply list_elem_of_singleton in Hin. injection Hin as ->.
        apply fallback_body_cities.
      * rewrite (fallback_throw _ _ Hp) in Hin. cbn in Hin. by apply elem_of_nil in Hin.
    + exfalso. revert Hin. unfold handler. rewrite Hm. cbn [String.eqb Ascii.eqb Bool.eqb negb].
      destruct (readJsonBody_total req) as (b' & Hb' & Hs).
      destruct (readJsonBody req) as [t1 r1]. cbn [outcome trace fst snd] in *.
      subst r1. injection Hb' as <-. cbn. rewrite Ha. cbn.
      rewrite app_nil_r, <- (app_nil_r t1), silent_responses by done.
      apply not_elem_of_nil.
  - apply String.eqb_neq in Hm. rewrite (handler_not_post w req Hm) in Hin.
    cbn in Hin. apply list_elem_of_singleton in Hin. discriminate.
Qed.

Lemma fallback_cities_three_witness :
  credential Sample.bare = None /\
  (200, fallback_body "Costa Rica") ∈
    responses (trace (@handler Ref.builtins Sample.bare (Sample.post EmptyString))) /\
  cities_count (fallback_body "Costa Rica") = Some 3%nat.
Proof.
  assert ((200, fallback_body "Costa Rica") ∈
    responses (trace (@handler Ref.builtins Sample.bare (Sample.post EmptyString)))) as Hin
    by (apply list_elem_of_singleton; reflexivity).
  split; [reflexivity | split; [exact Hin|]].
  exact (@fallback_cities_three Ref.builtins Sample.bare (Sample.post EmptyString) _
           eq_refl Hin).
Defined.

(** C3, the claim as stated, fails on the upstream path: a request that ends
    in a 200 response of the upstream-success path whose body has no
    [cities] at all. *)
Lemma upstream_success_without_cities :
  responses (trace (@handler Ref.builtins
    (Sample.keyed (Ok (Response true 200 (Ok (Sample.completion "plain prose")))))
    (Sample.post EmptyString))) =
    [(200, VObj [("text", VStr "plain prose")])] /\
  cities_count (VObj [("text", VStr "plain prose")]) = None.
Proof. split; reflexivity. Qed.

(** The resolver on a concrete world: the first variable is blank, the
    second is not set, and the file named by the third holds the key between
    blanks. *)
Example getApiKey_skips_blank_variable :
  getApiKey
    {| env := {[ "OPENAI_API_KEY" := "   "; "OPEN_AI_KEY_FILE" := "/etc/key" ]};
       files := {[ "/etc/key" := " sk-file" +:+ nl; "./OPEN_AI_KEY" := "sk-local" ]};
       global_fetch := None;
       node_fetch := Sample.no_node_fetch |} =
    ([ReadFile "/etc/key"], Ok (Some "sk-file")).
Proof. reflexivity. Qed.

(** C4 fails on the code: a POST request whose body is the JSON text [null]
    makes the handler throw a TypeError before anything is sent, whatever
    the credential. *)
Lemma handler_throws_on_null_body :
  @handler Ref.builtins Sample.bare (Sample.post "null") =
    ([ReadStream], Throw (TypeError "Cannot read properties of null (reading 'answers')")) /\
  responses (trace (@handler Ref.builtins Sample.bare (Sample.post "null"))) = [].
Proof. split; reflexivity. Qed.

(** ** The upstream path *)

Lemma field_member (v : value) (k : string) :
  JS.field v k = default VUndef (member k v).
Proof. by destruct v. Qed.

Lemma opt_prop_member (v : value) (k : string) :
  JS.opt_prop v k = default VUndef (member k v).
Proof. by destruct v. Qed.

Lemma opt_elem0_first (v : value) :
  JS.opt_elem0 v = default VUndef (first_entry v).
Proof. destruct v as [| | | | s | [|x xs] | kvs]; try done. cbn. by destruct (JS.first_char s). Qed.

Section Upstream.
Context `{Builtins}.

(** [j.choices?.[0]?.message?.content || ''] reads the path of the
    specification. *)
Lemma assistant_of_spec (j : value) :
  JS.nullish j = false ->
  assistant_of j = Ok (JS.or_else (default VUndef (content_at j)) (VStr "")).
Proof.
  intros Hj. unfold assistant_of, content_at. rewrite prop_not_nullish by done.
  f_equal. f_equal. rewrite !opt_prop_member, opt_elem0_first.
  rewrite field_member.
  destruct (member "choices" j) as [choices|]; [|done]. cbn.
  destruct (first_entry choices) as [choice|]; [|done]. cbn.
  by destruct (member "message" choice).
Qed.

Lemma assistant_of_string (j : value) (s : string) :
  JS.nullish j = false ->
  assistant_string j = Some s ->
  assistant_of j = Ok (VStr s).
Proof.
  intros Hj Hs. rewrite assistant_of_spec by done. unfold assistant_string in Hs.
  destruct (content_at j) as [[| | | | c | |]|]; try done; injection Hs as <-; cbn; try done.
  unfold JS.or_else. cbn. by destruct c.
Qed.

Lemma handle_response_failure (resp : response) (txt : string) :
  resp_ok resp = false ->
  resp_text resp = Ok txt ->
  handle_response resp =
    ([ Console "error" "OpenAI API error:"; Status 502;
       Json (VObj [ ("error", VStr "OpenAI API error");
                    ("status", VNum (resp_status resp));
                    ("body", VStr txt) ]) ], Ok tt).
Proof. intros Hok Ht. unfold handle_response. by rewrite Hok, Ht. Qed.

Lemma handle_response_success (resp : response) (txt s t : string) (j : value) :
  resp_ok resp = true ->
  resp_text resp = Ok txt ->
  JSON_parse txt = Ok j ->
  JS.nullish j = false ->
  assistant_string j = Some s ->
  json_text s t ->
  handle_response resp =
    match JSON_parse t with
    | Ok parsed => ([Status 200; Json parsed], Ok tt)
    | Throw _ =>
        ([ Console "warn" "Failed to parse assistant JSON; returning text. Assistant output:";
           Status 200; Json (VObj [("text", VStr s)]) ], Ok tt)
    end.
Proof.
  intros Hok Ht Hp Hj Hs Hjt. unfold handle_response, resp_json.
  rewrite Hok, Ht, Hp. cbn -[assistant_of parse_assistant].
  rewrite (assistant_of_string j s Hj Hs). cbn -[parse_assistant].
  unfold parse_assistant. rewrite (json_text_code s t Hjt).
  by destruct (JSON_parse t).
Qed.

End Upstream.

(** C6. On the upstream path, whenever the response of the upstream is not
    ok (and its body can be read as text), the handler answers 502 with
    [{error: 'OpenAI API error', status: <upstream status>, body: <upstream
    text>}].  That response is the last thing it does and the only response
    it sends: the content is not parsed. *)
Theorem upstream_failure_is_502 `{Builtins} (w : World) (req : Request)
    (resp : response) (txt : string) :
  upstream_answers w req resp ->
  resp_ok resp = false ->
  resp_text resp = Ok txt ->
  responses (trace (handler w req)) =
    [(502, VObj [ ("error", VStr "OpenAI API error");
                  ("status", VNum (resp_status resp));
                  ("body", VStr txt) ])] /\
  outcome (handler w req) = Ok tt /\
  exists t, forallb quiet t = true /\
    trace (handler w req) =
      t ++ [ Console "error" "OpenAI API error:"; Status 502;
             Json (VObj [ ("error", VStr "OpenAI API error");
                          ("status", VNum (resp_status resp));
                          ("body", VStr txt) ]) ].
Proof.
  intros Hup Hok Ht.
  destruct (handler_upstream w req resp Hup) as (t & key & answers & _ & Hq & Heq).
  rewrite Heq, (handle_response_failure resp txt Hok Ht). cbn.
  rewrite (responses_quiet t) by done. split; [done|]. split; [done|]. by exists t.
Qed.

Lemma upstream_failure_is_502_witness :
  responses (trace (@handler Ref.builtins
    (Sample.keyed (Ok (Response false 429 (Ok "rate limited"))))
    (Sample.post EmptyString))) =
    [(502, VObj [ ("error", VStr "OpenAI API error");
                  ("status", VNum 429);
                  ("body", VStr "rate limited") ])].
Proof.
  refine (proj1 (@upstream_failure_is_502 Ref.builtins
    (Sample.keyed (Ok (Response false 429 (Ok "rate limited"))))
    (Sample.post EmptyString) (Response false 429 (Ok "rate limited")) "rate limited" _ _ _)).
  - exists (VObj []), "sk-test", (fun _ _ => Ok (Response false 429 (Ok "rate limited"))).
    split; [|repeat split; reflexivity].
    split; [reflexivity|]. eexists _, _. repeat split; reflexivity.
  - reflexivity.
  - reflexivity.
Defined.

(** C5, as amended.  On the upstream path with an ok response whose body
    parses to a JSON value other than [null], let [s] be the assistant content string (the
    string at [choices[0].message.content], empty when that path is absent)
    and [t] the text of [s] from its first brace on (all of [s] when it has
    no brace).  When [t] parses as JSON the handler answers 200 with the
    parsed value as it is; when it does not, the handler answers 200 with
    [{text: s}]. *)
Theorem upstream_success_recovers_json `{Builtins} (w : World) (req : Request)
    (resp : response) (txt s t : string) (j : value) :
  upstream_answers w req resp ->
  resp_ok resp = true ->
  resp_text resp = Ok txt ->
  JSON_parse txt = Ok j ->
  JS.nullish j = false ->
  assistant_string j = Some s ->
  json_text s t ->
  responses (trace (handler w req)) =
    [(200, match JSON_parse t with
           | Ok parsed => parsed
           | Throw _ => VObj [("text", VStr s)]
           end)] /\
  outcome (handler w req) = Ok tt.
Proof.
  intros Hup Hok Ht Hp Hj Hs Hjt.
  destruct (handler_upstream w req resp Hup) as (u & key & answers & _ & Hq & Heq).
  rewrite Heq, (handle_response_success resp txt s t j Hok Ht Hp Hj Hs Hjt).
  destruct (JSON_parse t); cbn; by rewrite (responses_quiet u).
Qed.

Lemma upstream_success_recovers_json_witness :
  responses (trace (@handler Ref.builtins
    (Sample.keyed (Ok (Response true 200 (Ok (Sample.completion "here you go: {}")))))
    (Sample.post EmptyString))) = [(200, VObj [])].
Proof.
  refine (proj1 (@upstream_success_recovers_json Ref.builtins
    (Sample.keyed (Ok (Response true 200 (Ok (Sample.completion "here you go: {}")))))
    (Sample.post EmptyString)
    (Response true 200 (Ok (Sample.completion "here you go: {}")))
    (Sample.completion "here you go: {}") "here you go: {}" "{}"
    (VObj [("choices", VArr [VObj [("message",
       VObj [("role", VStr "assistant"); ("content", VStr "here you go: {}")])]])])
    _ _ _ _ _ _ _)).
  - exists (VObj []), "sk-test",
      (fun _ _ => Ok (Response true 200 (Ok (Sample.completion "here you go: {}")))).
    split; [|repeat split; reflexivity].
    split; [reflexivity|]. eexists _, _. repeat split; reflexivity.
  - reflexivity.
  - reflexivity.
  - reflexivity.
  - reflexivity.
  - reflexivity.
  - apply (json_text_brace _ "here you go: " "}"); [reflexivity|].
    apply string_includes_false. reflexivity.
Defined.

(** C5, the claim as stated, fails on an ok response whose body is the JSON
    text [null].  Nothing is at [choices[0].message.content], so the content
    of the claim is the empty string, which does not parse, and the claim has
    the answer 200 with [{text: ''}]; the code reads [j.choices] on [null],
    and the outer [catch] answers 500. *)
Lemma upstream_success_null_body :
  @JSON_parse Ref.builtins "null" = Ok VNull /\
  assistant_string VNull = Some EmptyString /\
  json_text EmptyString EmptyString /\
  (exists e, @JSON_parse Ref.builtins EmptyString = Throw e) /\
  responses (trace (@handler Ref.builtins
    (Sample.keyed (Ok (Response true 200 (Ok "null")))) (Sample.post EmptyString))) =
    [(500, VObj [ ("error", VStr "Server error");
                  ("message",
                    VStr "TypeError: Cannot read properties of null (reading 'choices')") ])] /\
  responses (trace (@handler Ref.builtins
    (Sample.keyed (Ok (Response true 200 (Ok "null")))) (Sample.post EmptyString))) <>
    [(200, VObj [("text", VStr EmptyString)])].
Proof.
  split; [reflexivity|]. split; [reflexivity|].
  split; [apply json_text_whole; apply string_includes_false; reflexivity|].
  split; [eexists; reflexivity|].
  split; [reflexivity | discriminate].
Qed.

(** C8. When the transport supplies no parsed, non-empty body and the raw
    text of the request is empty or does not parse as JSON (or the stream
    ends in an error), reading the body gives the empty object and sends
    nothing, and the handler answers exactly as it answers the same request
    carrying the body [{answers: {}}]. *)
Theorem unparsable_body_is_empty_answers `{Builtins} (w : World) (req : Request) :
  JS.truthy (body req) && JS.has_keys (body req) = false ->
  finish req = StreamError \/
  (finish req = StreamEnd /\
   (raw_text req = EmptyString \/ exists e, JSON_parse (raw_text req) = Throw e)) ->
  readJsonBody req = ([ReadStream], Ok (VObj [])) /\
  responses (trace (handler w req)) =
    responses (trace (handler w (with_answers req (VObj [])))) /\
  outcome (handler w req) = outcome (handler w (with_answers req (VObj []))).
Proof.
  intros Hb Hraw.
  assert (readJsonBody req = ([ReadStream], Ok (VObj []))) as Hread.
  { unfold readJsonBody. rewrite Hb. fold (raw_text req).
    destruct Hraw as [-> | (-> & [-> | [e He]])]; [done | |].
    - cbn. by rewrite JSON_parse_empty_object.
    - destruct (Str.nonempty (raw_text req)); cbn.
      + by rewrite He.
      + by rewrite JSON_parse_empty_object. }
  split; [done|].
  destruct (String.eqb (method req) "POST") eqn:Hm.
  - apply String.eqb_eq in Hm.
    assert (carries req (VObj [])) as Hc1.
    { split; [done|]. exists (VObj []), VUndef. by rewrite Hread. }
    assert (carries (with_answers req (VObj [])) (VObj [])) as Hc2.
    { split; [done|]. by exists (VObj [("answers", VObj [])]), (VObj []). }
    destruct (handler_branch w _ _ Hc1) as (t1 & Hs1 & ->).
    destruct (handler_branch w _ _ Hc2) as (t2 & Hs2 & ->).
    cbn [trace outcome fst snd]. by rewrite !silent_responses.
  - apply String.eqb_neq in Hm.
    by rewrite (handler_not_post w req Hm), (handler_not_post w (with_answers req _) Hm).
Qed.

Lemma unparsable_body_is_empty_answers_witness :
  @readJsonBody Ref.builtins (Sample.post "{not json") = ([ReadStream], Ok (VObj [])) /\
  responses (trace (@handler Ref.builtins Sample.bare (Sample.post "{not json"))) =
    responses (trace (@handler Ref.builtins Sample.bare
                        (with_answers (Sample.post "{not json") (VObj [])))) /\
  outcome (@handler Ref.builtins Sample.bare (Sample.post "{not json")) =
    outcome (@handler Ref.builtins Sample.bare
               (with_answers (Sample.post "{not json") (VObj []))).
Proof.
  apply (@unparsable_body_is_empty_answers Ref.builtins Sample.bare (Sample.post "{not json")).
  - reflexivity.
  - right. split; [reflexivity|]. right. eexists. reflexivity.
Defined.

(** ** Every request: one response, or a throw before any *)

(** With a key the handler always answers, once, with 200, 502 or 500: the
    [try] of lines 105 to 146 catches whatever is thrown inside. *)
Lemma upstream_total `{Builtins} (w : World) (key : string) (answers : value) :
  exists code payload,
    responses (trace (upstream w key answers)) = [(code, payload)] /\
    code ∈ [200; 502; 500] /\
    outcome (upstream w key answers) = Ok tt.
Proof.
  unfold upstream, getFetch, handle_response, resp_json, assistant_of.
  destruct (global_fetch w) as [f|]; [|destruct (node_fetch w) as [f|e]]; cbn;
    try (eexists _, _; split; [reflexivity | split; [set_solver | reflexivity]]).
  all: destruct (f _ _) as [resp|e]; cbn;
    try (eexists _, _; split; [reflexivity | split; [set_solver | reflexivity]]).
  all: destruct (resp_ok resp); cbn; destruct (resp_text resp) as [txt|e]; cbn;
    try (eexists _, _; split; [reflexivity | split; [set_solver | reflexivity]]).
  all: destruct (JSON_parse txt) as [j|e]; cbn;
    try (eexists _, _; split; [reflexivity | split; [set_solver | reflexivity]]).
  all: destruct (JS.prop j "choices") as [c|e]; cbn;
    try (eexists _, _; split; [reflexivity | split; [set_solver | reflexivity]]).
  all: destruct (parse_assistant _) as [parsed|e]; cbn;
    eexists _, _; (split; [reflexivity | split; [set_solver | reflexivity]]).
Qed.

(** X1. The handler sends at most one response.  When it returns, it has sent
    exactly one, with status 200, 405, 502 or 500; when it throws, it has sent
    none. *)
Theorem handler_one_response_or_throw `{Builtins} (w : World) (req : Request) :
  (exists code payload,
     responses (trace (handler w req)) = [(code, payload)] /\
     code ∈ [200; 405; 502; 500] /\
     outcome (handler w req) = Ok tt) \/
  (responses (trace (handler w req)) = [] /\
   exists e, outcome (handler w req) = Throw e).
Proof.
  destruct (String.eqb (method req) "POST") eqn:Hm.
  - apply String.eqb_eq in Hm.
    destruct (readJsonBody_total req) as (b & Hb & Hs).
    destruct (JS.prop b "answers") as [a|e] eqn:Ha.
    + assert (carries req (JS.or_else a (VObj []))) as Hc
        by (split; [done | by exists b, a]).
      destruct (handler_branch w req _ Hc) as (t & Hst & ->).
      cbn [trace outcome fst snd]. rewrite silent_responses by done.
      unfold branch. destruct (credential w) as [key|].
      * destruct (upstream_total w key (JS.or_else a (VObj [])))
          as (code & payload & Hr & Hcode & Ho).
        left. exists code, payload. split; [done|]. split; [|done].
        revert Hcode. rewrite !elem_of_cons. tauto.
      * destruct (pick_country (JS.or_else a (VObj []))) as [country|e] eqn:Hp.
        -- rewrite (fallback_ok _ _ Hp). left. eexists _, _.
           split; [reflexivity|]. split; [set_solver | done].
        -- rewrite (fallback_throw _ _ Hp). right. split; [done | by exists e].
    + right. unfold handler. rewrite Hm. cbn [String.eqb Ascii.eqb Bool.eqb negb].
      destruct (readJsonBody req) as [t1 r1]. cbn [outcome trace fst snd] in *.
      subst r1. cbn. rewrite Ha. cbn.
      rewrite app_nil_r, <- (app_nil_r t1), silent_responses by done.
      split; [done | by exists e].
  - apply String.eqb_neq in Hm. rewrite (handler_not_post w req Hm).
    left. eexists _, _. split; [reflexivity|]. split; [set_solver | done].
Qed.

(** The pick throws on exactly the answers of [pick_throws]. *)
Lemma pick_country_throws `{Builtins} (answers : value) :
  JS.nullish answers = false ->
  (exists e, pick_country answers = Throw e) <-> pick_throws answers = true.
Proof.
  intros Hn. unfold pick_country, pick_throws. rewrite !prop_not_nullish by done.
  destruct (JS.array_includes _ "panama"); cbn [negb andb].
  { split; [by intros [e He] | done]. }
  destruct (JS.array_includes _ "belize"); cbn [negb andb].
  { split; [by intros [e He] | done]. }
  unfold JS.or_else.
  destruct (JS.field answers "relocationType") as [| | [] | x | s | xs | kvs]; cbn;
    try (split; [by intros [e He] | done]);
    try (split; [done | by eexists]).
  - destruct (negb _) eqn:Hx; cbn; rewrite ?Hx; cbn;
      [split; [done | by eexists] | split; [by intros [e He] | done]].
  - destruct (negb _) eqn:Hx; cbn; rewrite ?Hx; cbn;
      (split; [by intros [e He] | done]).
Qed.

(** X2. The handler throws exactly when the request is a POST whose body reads
    as [null] or [undefined], or whose answers make the fallback pick throw
    when no credential is resolved. *)
Theorem handler_throws_iff `{Builtins} (w : World) (req : Request) :
  (exists e, outcome (handler w req) = Throw e) <->
  method req = "POST" /\
  exists b, outcome (readJsonBody req) = Ok b /\
    (JS.nullish b = true \/
     (JS.nullish b = false /\ credential w = None /\
      pick_throws (JS.or_else (JS.field b "answers") (VObj [])) = true)).
Proof.
  destruct (String.eqb (method req) "POST") eqn:Hm.
  - apply String.eqb_eq in Hm.
    destruct (readJsonBody_total req) as (b & Hb & Hs).
    transitivity
      (JS.nullish b = true \/
       (JS.nullish b = false /\ credential w = None /\
        pick_throws (JS.or_else (JS.field b "answers") (VObj [])) = true)).
    2:{ split.
        - intros Hb'. split; [done|]. by exists b.
        - intros (_ & b' & Hb' & HP). congruence. }
    destruct (JS.nullish b) eqn:Hn.
    + split; [by left|]. intros _.
      unfold handler. rewrite Hm. cbn [String.eqb Ascii.eqb Bool.eqb negb].
      destruct (readJsonBody req) as [t1 r1]. cbn [outcome trace fst snd] in *.
      subst r1. destruct b; try done; cbn; by eexists.
    + assert (carries req (JS.or_else (JS.field b "answers") (VObj []))) as Hc.
      { split; [done|]. exists b, (JS.field b "answers").
        by rewrite prop_not_nullish. }
      destruct (handler_branch w req _ Hc) as (t & Hst & ->).
      cbn [outcome snd]. unfold branch.
      destruct (credential w) as [key|].
      * destruct (upstream_total w key (JS.or_else (JS.field b "answers") (VObj [])))
          as (code & payload & _ & _ & ->).
        split; [by intros [e He] | by intros [Hx | (_ & Hx & _)]].
      * rewrite <- pick_country_throws by apply or_else_not_nullish.
        split.
        -- intros [e He]. right. split; [done|]. split; [done|].
           destruct (pick_country _) as [country|e'] eqn:Hp; [|by exists e'].
           by rewrite (fallback_ok _ _ Hp) in He.
        -- intros [Hx | (_ & _ & e & He)]; [done|].
           rewrite (fallback_throw _ _ He). by exists e.
  - apply String.eqb_neq in Hm. rewrite (handler_not_post w req Hm).
    split; [by intros [e He] | by intros [Hx _]].
Qed.

(** ** More on the upstream path *)

Section UpstreamCases.
Context `{Builtins}.
Variable w : World.

(** The handler's trace, part by part, on a request that carries answers. *)
Lemma handler_trace (req : Request) (answers : value) :
  carries req answers ->
  handler w req =
    (trace (readJsonBody req) ++ trace (getApiKey w) ++ trace (branch w answers),
     outcome (branch w answers)).
Proof.
  intros (Hm & b & a & Hb & Ha & ->).
  destruct (getApiKey_spec w) as [Hk _].
  assert (forall key, credential w = Some key -> truthy_key (Some key) = true)
    as Hne by (intros key Hc; apply (first_nonempty_nonempty _ _ Hc)).
  unfold handler, branch. rewrite Hm. cbn [String.eqb Ascii.eqb Bool.eqb negb].
  destruct (readJsonBody req) as [t1 r1]. cbn [outcome trace fst snd] in Hb. subst r1.
  destruct (getApiKey w) as [t2 r2]. cbn [outcome trace fst snd] in Hk. subst r2.
  cbn [trace fst].
  destruct (credential w) as [key|].
  - cbn -[truthy_key upstream]. rewrite Ha. cbn -[truthy_key upstream].
    rewrite (Hne key eq_refl). cbn -[upstream].
    by destruct (upstream w key _) as [t3 r3].
  - cbn -[fallback]. rewrite Ha. cbn -[fallback].
    by destruct (fallback _) as [t3 r3].
Qed.

(** With a fetch capability the upstream branch is: the import when the
    global fetch is missing, the one call of [fetch], and what follows it. *)
Lemma upstream_with_capability (key : string) (answers : value) (f : fetch_fn) :
  fetch_capability w = Some f ->
  upstream w key answers =
    (trace (getFetch w) ++
     Fetch completions_url (completions_init key answers) ::
     trace (after_fetch (f completions_url (completions_init key answers))),
     outcome (after_fetch (f completions_url (completions_init key answers)))) /\
  (trace (getFetch w) = [] \/ trace (getFetch w) = [Import "node-fetch"]).
Proof.
  unfold fetch_capability, upstream, after_fetch, getFetch.
  destruct (global_fetch w) as [g|]; [|destruct (node_fetch w) as [g|e]];
    intros [= ->]; (split; [|by auto]); cbn -[handle_response];
    destruct (f _ _) as [resp|e]; cbn -[handle_response]; try done;
    by destruct (handle_response resp) as [t [[]|e]].
Qed.

(** Without one, all the upstream branch does is fail to import and answer
    500. *)
Lemma upstream_without_capability (key : string) (answers : value) :
  fetch_capability w = None ->
  exists err, node_fetch w = Throw err /\
    upstream w key answers =
      ([ Import "node-fetch";
         Console "error" "Server error in recommend function:";
         Status 500; Json (server_error (no_fetch_error err)) ], Ok tt).
Proof.
  unfold fetch_capability, upstream, getFetch.
  destruct (global_fetch w) as [g|]; [done|].
  destruct (node_fetch w) as [g|err]; [done|]. intros _. by exists err.
Qed.

(** After the call of [fetch] the handler only logs, and then answers once,
    with 200, 502 or 500; the response is the last thing it does. *)
Lemma after_fetch_shape (r : result response) :
  exists logs code payload,
    after_fetch r = (logs ++ [Status code; Json payload], Ok tt) /\
    forallb is_console logs = true /\
    code ∈ [200; 502; 500].
Proof.
  unfold after_fetch, handle_response, resp_json, assistant_of.
  destruct r as [resp|e]; cbn;
    [|by exists [Console "error" "Server error in recommend function:"], 500, (server_error e);
         repeat split; set_solver].
  destruct (resp_ok resp); cbn; destruct (resp_text resp) as [txt|e]; cbn;
    try (by exists [Console "error" "Server error in recommend function:"], 500, (server_error e);
            repeat split; set_solver).
  - destruct (JSON_parse txt) as [j|e]; cbn;
      [|by exists [Console "error" "Server error in recommend function:"], 500, (server_error e);
           repeat split; set_solver].
    destruct (JS.prop j "choices") as [c|e]; cbn;
      [|by exists [Console "error" "Server error in recommend function:"], 500, (server_error e);
           repeat split; set_solver].
    destruct (parse_assistant _) as [parsed|e]; cbn.
    + exists [], 200, parsed. repeat split; set_solver.
    + eexists [Console "warn" _], 200, _. repeat split; set_solver.
  - eexists [Console "error" _], 502, _. repeat split; set_solver.
Qed.

End UpstreamCases.

Lemma filter_fetch_console (logs : list event) :
  forallb is_console logs = true -> List.filter is_fetch logs = [].
Proof.
  induction logs as [|e logs IH]; [done|]. cbn [forallb List.filter].
  intros [He Hl]%andb_true_iff. destruct e; try done. by apply IH.
Qed.

Lemma responses_console (logs t : list event) :
  forallb is_console logs = true -> responses (logs ++ t) = responses t.
Proof.
  intros Hl. apply responses_quiet. induction logs as [|e logs IH]; [done|].
  cbn [forallb] in *. apply andb_true_iff in Hl as [He Hl]. rewrite IH by done.
  by destruct e.
Qed.

Lemma getFetch_silent `{Builtins} (w : World) (f : fetch_fn) :
  fetch_capability w = Some f -> silent (trace (getFetch w)).
Proof. intros Hf. by destruct (getFetch_capability w f Hf). Qed.

(** X3. On the upstream path with a fetch capability, whatever the upstream
    does, [fetch] is called exactly once: one POST to the chat-completions
    endpoint, with the header Authorization made of Bearer and the resolved
    key, which is not empty.  There is no retry. *)
Theorem upstream_called_once `{Builtins} (w : World) (req : Request)
    (answers : value) (key : string) (f : fetch_fn) :
  carries req answers ->
  credential w = Some key ->
  fetch_capability w = Some f ->
  List.filter is_fetch (trace (handler w req)) =
    [Fetch completions_url (completions_init key answers)] /\
  completions_url = "https://api.openai.com/v1/chat/completions" /\
  init_method (completions_init key answers) = "POST" /\
  init_headers (completions_init key answers) =
    [("Authorization", "Bearer " +:+ key); ("Content-Type", "application/json")] /\
  key <> EmptyString.
Proof.
  intros Hc Hk Hf. split; [|repeat split].
  - rewrite (handler_trace w req answers Hc). unfold branch. rewrite Hk.
    destruct (upstream_with_capability w key answers f Hf) as [-> _].
    destruct (readJsonBody_total req) as (b & _ & Hs1).
    destruct (getApiKey_spec w) as [_ Hs2].
    destruct (after_fetch_shape (f completions_url (completions_init key answers)))
      as (logs & code & payload & -> & Hlogs & _).
    cbn [trace fst].
    rewrite silent_fetches, silent_fetches, silent_fetches by
      (done || by apply (getFetch_silent w f)).
    cbn [List.filter is_fetch]. rewrite List.filter_app, filter_fetch_console by done.
    done.
  - intros ->. unfold credential in Hk. by apply first_nonempty_nonempty in Hk.
Qed.

Lemma upstream_called_once_witness :
  List.filter is_fetch (trace (@handler Ref.builtins
    (keyed_by_file (Throw (Error "socket hang up"))) (Sample.post EmptyString))) =
    [Fetch completions_url (@completions_init Ref.builtins "sk-local" (VObj []))].
Proof.
  refine (proj1 (@upstream_called_once Ref.builtins
    (keyed_by_file (Throw (Error "socket hang up"))) (Sample.post EmptyString)
    (VObj []) "sk-local" (fun _ _ => Throw (Error "socket hang up")) _ _ _)).
  - split; [reflexivity|]. eexists _, _. repeat split; reflexivity.
  - reflexivity.
  - reflexivity.
Defined.

(** X4. With a key and no fetch capability (no global [fetch], and the
    import of node-fetch fails with [err]) the handler answers 500 with the
    message of the error [getFetch] throws, which quotes [err]; nothing is
    fetched. *)
Theorem no_fetch_capability_is_500 `{Builtins} (w : World) (req : Request)
    (answers : value) (key : string) :
  carries req answers ->
  credential w = Some key ->
  fetch_capability w = None ->
  exists err,
    node_fetch w = Throw err /\
    global_fetch w = None /\
    responses (trace (handler w req)) =
      [(500, VObj [ ("error", VStr "Server error");
                    ("message",
                      VStr ("Error: No fetch available and node-fetch failed to import: "
                            +:+ String_exn err)) ])] /\
    outcome (handler w req) = Ok tt /\
    List.filter is_fetch (trace (handler w req)) = [].
Proof.
  intros Hc Hk Hf.
  destruct (upstream_without_capability w key answers Hf) as (err & Herr & Hup).
  exists err. split; [done|]. split.
  { unfold fetch_capability in Hf. by destruct (global_fetch w). }
  rewrite (handler_trace w req answers Hc). unfold branch. rewrite Hk, Hup.
  destruct (readJsonBody_total req) as (b & _ & Hs1).
  destruct (getApiKey_spec w) as [_ Hs2].
  cbn [trace outcome fst snd].
  rewrite !silent_responses, !silent_fetches by done. done.
Qed.

Lemma no_fetch_capability_is_500_witness :
  exists err,
    node_fetch keyed_without_fetch = Throw err /\
    global_fetch keyed_without_fetch = None /\
    responses (trace (@handler Ref.builtins keyed_without_fetch (Sample.post EmptyString))) =
      [(500, VObj [ ("error", VStr "Server error");
                    ("message",
                      VStr ("Error: No fetch available and node-fetch failed to import: "
                            +:+ String_exn err)) ])] /\
    outcome (@handler Ref.builtins keyed_without_fetch (Sample.post EmptyString)) = Ok tt /\
    List.filter is_fetch
      (trace (@handler Ref.builtins keyed_without_fetch (Sample.post EmptyString))) = [].
Proof.
  apply (@no_fetch_capability_is_500 Ref.builtins keyed_without_fetch
           (Sample.post EmptyString) (VObj []) "sk-env").
  - split; [reflexivity|]. eexists _, _. repeat split; reflexivity.
  - reflexivity.
  - reflexivity.
Defined.

(** X5. When the call of [fetch] itself fails (it rejects with [err]: no
    network, a refused connection), the handler answers 500 with
    [{error: 'Server error', message: String(err)}]. *)
Theorem fetch_rejection_is_500 `{Builtins} (w : World) (req : Request)
    (answers : value) (key : string) (f : fetch_fn) (err : exn) :
  carries req answers ->
  credential w = Some key ->
  fetch_capability w = Some f ->
  f completions_url (completions_init key answers) = Throw err ->
  responses (trace (handler w req)) =
    [(500, VObj [("error", VStr "Server error"); ("message", VStr (String_exn err))])] /\
  outcome (handler w req) = Ok tt.
Proof.
  intros Hc Hk Hf Hr.
  rewrite (handler_trace w req answers Hc). unfold branch. rewrite Hk.
  destruct (upstream_with_capability w key answers f Hf) as [-> _].
  destruct (readJsonBody_total req) as (b & _ & Hs1).
  destruct (getApiKey_spec w) as [_ Hs2].
  rewrite Hr. cbn [trace outcome fst snd].
  rewrite !silent_responses by (done || by apply (getFetch_silent w f)). done.
Qed.

Lemma fetch_rejection_is_500_witness :
  responses (trace (@handler Ref.builtins
    (keyed_by_file (Throw (Error "socket hang up"))) (Sample.post EmptyString))) =
    [(500, VObj [ ("error", VStr "Server error");
                  ("message", VStr "Error: socket hang up") ])].
Proof.
  refine (proj1 (@fetch_rejection_is_500 Ref.builtins
    (keyed_by_file (Throw (Error "socket hang up"))) (Sample.post EmptyString)
    (VObj []) "sk-local" (fun _ _ => Throw (Error "socket hang up"))
    (Error "socket hang up") _ _ _ _)).
  - split; [reflexivity|]. eexists _, _. repeat split; reflexivity.
  - reflexivity.
  - reflexivity.
  - reflexivity.
Defined.

(** X6. When the body of the upstream response cannot be read, or the
    response is ok and its body is not JSON, the error [e] of the read or of
    the parse reaches the outer [catch]: the handler answers 500 with
    [{error: 'Server error', message: String(e)}]. *)
Theorem upstream_unreadable_is_500 `{Builtins} (w : World) (req : Request)
    (resp : response) (e : exn) :
  upstream_answers w req resp ->
  resp_text resp = Throw e \/
  (resp_ok resp = true /\
   exists txt, resp_text resp = Ok txt /\ JSON_parse txt = Throw e) ->
  responses (trace (handler w req)) =
    [(500, VObj [("error", VStr "Server error"); ("message", VStr (String_exn e))])] /\
  outcome (handler w req) = Ok tt.
Proof.
  intros Hup Hbad.
  destruct (handler_upstream w req resp Hup) as (t & key & answers & _ & Hq & ->).
  cbn zeta.
  assert (handle_response resp = ([], Throw e)) as ->.
  { unfold handle_response, resp_json.
    destruct Hbad as [Ht | (Hok & txt & Ht & Hp)].
    - rewrite Ht. by destruct (resp_ok resp).
    - by rewrite Hok, Ht, Hp. }
  cbn. by rewrite (responses_quiet t).
Qed.

Lemma upstream_unreadable_is_500_witness :
  responses (trace (@handler Ref.builtins
    (Sample.keyed (Ok (Response true 200 (Ok "<html>gateway</html>"))))
    (Sample.post EmptyString))) =
    [(500, VObj [ ("error", VStr "Server error");
                  ("message", VStr "SyntaxError: Unexpected token or end of JSON input") ])].
Proof.
  refine (proj1 (@upstream_unreadable_is_500 Ref.builtins
    (Sample.keyed (Ok (Response true 200 (Ok "<html>gateway</html>"))))
    (Sample.post EmptyString) (Response true 200 (Ok "<html>gateway</html>"))
    (SyntaxError "Unexpected token or end of JSON input") _ _)).
  - exists (VObj []), "sk-test", (fun _ _ => Ok (Response true 200 (Ok "<html>gateway</html>"))).
    split; [|repeat split; reflexivity].
    split; [reflexivity|]. eexists _, _. repeat split; reflexivity.
  - right. split; [reflexivity|]. eexists. split; reflexivity.
Defined.

(** X7. An ok upstream response whose body is the JSON value [null] is not
    covered by the optional chaining of line 131: reading [j.choices] throws
    and the handler answers 500 with the message of that TypeError. *)
Theorem upstream_null_is_500 `{Builtins} (w : World) (req : Request)
    (resp : response) (txt : string) :
  upstream_answers w req resp ->
  resp_ok resp = true ->
  resp_text resp = Ok txt ->
  JSON_parse txt = Ok VNull ->
  responses (trace (handler w req)) =
    [(500, VObj [ ("error", VStr "Server error");
                  ("message",
                    VStr "TypeError: Cannot read properties of null (reading 'choices')") ])] /\
  outcome (handler w req) = Ok tt.
Proof.
  intros Hup Hok Ht Hp.
  destruct (handler_upstream w req resp Hup) as (t & key & answers & _ & Hq & ->).
  cbn zeta.
  assert (handle_response resp =
          ([], Throw (TypeError "Cannot read properties of null (reading 'choices')"))) as ->.
  { unfold handle_response, resp_json. by rewrite Hok, Ht, Hp. }
  cbn. by rewrite (responses_quiet t).
Qed.

Lemma upstream_null_is_500_witness :
  responses (trace (@handler Ref.builtins
    (Sample.keyed (Ok (Response true 200 (Ok "null")))) (Sample.post EmptyString))) =
    [(500, VObj [ ("error", VStr "Server error");
                  ("message",
                    VStr "TypeError: Cannot read properties of null (reading 'choices')") ])].
Proof.
  refine (proj1 (@upstream_null_is_500 Ref.builtins
    (Sample.keyed (Ok (Response true 200 (Ok "null")))) (Sample.post EmptyString)
    (Response true 200 (Ok "null")) "null" _ _ _ _)).
  - exists (VObj []), "sk-test", (fun _ _ => Ok (Response true 200 (Ok "null"))).
    split; [|repeat split; reflexivity].
    split; [reflexivity|]. eexists _, _. repeat split; reflexivity.
  - reflexivity.
  - reflexivity.
  - reflexivity.
Defined.

(** X8. When the assistant content is there but is a number other than
    zero, [true] or an object, [assistant.indexOf] is not a function; the
    inner [catch] takes the TypeError like a parse failure, and the handler
    answers 200 with [{text: <that content>}], the content unchanged. *)
Theorem non_string_content_is_text `{Builtins} (w : World) (req : Request)
    (resp : response) (txt : string) (j c : value) :
  upstream_answers w req resp ->
  resp_ok resp = true ->
  resp_text resp = Ok txt ->
  JSON_parse txt = Ok j ->
  content_at j = Some c ->
  lacks_indexOf c = true ->
  responses (trace (handler w req)) = [(200, VObj [("text", c)])] /\
  outcome (handler w req) = Ok tt.
Proof.
  intros Hup Hok Ht Hp Hc Hl.
  assert (JS.nullish j = false) as Hj by (by destruct j).
  destruct (handler_upstream w req resp Hup) as (t & key & answers & _ & Hq & ->).
  cbn zeta.
  assert (handle_response resp =
          ([ Console "warn" "Failed to parse assistant JSON; returning text. Assistant output:";
             Status 200; Json (VObj [("text", c)]) ], Ok tt)) as ->.
  { unfold handle_response, resp_json. rewrite Hok, Ht, Hp.
    cbn -[assistant_of parse_assistant].
    rewrite (assistant_of_spec j Hj), Hc. cbn -[parse_assistant].
    assert (JS.truthy c = true) as Htr by (destruct c; done || exact Hl).
    unfold JS.or_else. rewrite Htr. by destruct c. }
  cbn. by rewrite (responses_quiet t).
Qed.

Lemma non_string_content_is_text_witness :
  responses (trace (@handler Ref.builtins
    (Sample.keyed (Ok (Response true 200
       (Ok numeric_completion))))
    (Sample.post EmptyString))) = [(200, VObj [("text", VNum 42)])].
Proof.
  refine (proj1 (@non_string_content_is_text Ref.builtins _ (Sample.post EmptyString)
    (Response true 200 (Ok numeric_completion))
    numeric_completion
    (VObj [("choices", VArr [VObj [("message", VObj [("content", VNum 42)])]])])
    (VNum 42) _ _ _ _ _ _)).
  - exists (VObj []), "sk-test",
      (fun _ _ => Ok (Response true 200
         (Ok numeric_completion))).
    split; [|repeat split; reflexivity].
    split; [reflexivity|]. eexists _, _. repeat split; reflexivity.
  - reflexivity.
  - reflexivity.
  - reflexivity.
  - reflexivity.
  - reflexivity.
Defined.

(** ** The shape of every trace *)

Lemma forallb_console_quiet (logs : list event) :
  forallb is_console logs = true -> forallb quiet logs = true.
Proof.
  induction logs as [|e logs IH]; [done|]. cbn [forallb].
  intros [He Hl]%andb_true_iff. rewrite IH by done. by destruct e.
Qed.

Lemma headers_quiet (t : list event) : forallb quiet t = true -> headers t = [].
Proof.
  unfold headers. induction t as [|e t IH]; [done|]. cbn [forallb].
  intros [He Ht]%andb_true_iff. destruct e; try done; by apply IH.
Qed.

Lemma responses_of_quiet (t : list event) : forallb quiet t = true -> responses t = [].
Proof. intros Hq. by rewrite <- (app_nil_r t), responses_quiet. Qed.

Lemma filter_none (p q : event -> bool) (t : list event) :
  (forall e, q e = true -> p e = false) ->
  forallb q t = true -> List.filter p t = [].
Proof.
  intros Hpq. induction t as [|e t IH]; [done|]. cbn [forallb List.filter].
  intros [He Ht]%andb_true_iff. rewrite (Hpq e He). by apply IH.
Qed.

Lemma readJsonBody_trace `{Builtins} (req : Request) :
  trace (readJsonBody req) = [] \/ trace (readJsonBody req) = [ReadStream].
Proof.
  unfold readJsonBody.
  destruct (JS.truthy (body req) && JS.has_keys (body req)); [by left|]. right.
  destruct (finish req); [|done]. by destruct (JSON_parse _).
Qed.

(** All [getApiKey] does to the outside is read files. *)
Lemma getApiKey_reads_files (w : World) :
  forallb is_file_read (trace (getApiKey w)) = true.
Proof.
  unfold getApiKey.
  destruct (env_key w "OPENAI_API_KEY"); [done|].
  destruct (env_key w "OPEN_AI_KEY"); [done|].
  destruct (env w !! "OPEN_AI_KEY_FILE") as [p|]; cbn [mbind option_bind];
    [destruct (Str.nonempty p)|];
    rewrite !tryReadFileSync_spec; cbn -[usable];
    rewrite ?truthy_key_usable;
    repeat (destruct (usable _); cbn -[usable]; try done).
Qed.

Section Shape.
Context `{Builtins}.
Variable w : World.

(** A POST request on which reading [body.answers] throws. *)
Lemma handler_body_throw (req : Request) (b : value) (e : exn) :
  method req = "POST" ->
  outcome (readJsonBody req) = Ok b ->
  JS.prop b "answers" = Throw e ->
  handler w req = (trace (readJsonBody req), Throw e).
Proof.
  intros Hm Hb Ha. unfold handler. rewrite Hm.
  cbn [String.eqb Ascii.eqb Bool.eqb negb].
  destruct (readJsonBody req) as [t1 r1]. cbn [outcome trace fst snd] in *.
  subst r1. cbn. rewrite Ha. cbn. by rewrite app_nil_r.
Qed.

(** Every request is of one of three kinds. *)
Lemma handler_cases (req : Request) :
  method req <> "POST" \/
  (method req = "POST" /\
   exists b e, outcome (readJsonBody req) = Ok b /\ JS.prop b "answers" = Throw e) \/
  exists answers, carries req answers.
Proof.
  destruct (String.eqb (method req) "POST") eqn:Hm.
  - apply String.eqb_eq in Hm. right.
    destruct (readJsonBody_total req) as (b & Hb & _).
    destruct (JS.prop b "answers") as [a|e] eqn:Ha.
    + right. exists (JS.or_else a (VObj [])). split; [done | by exists b, a].
    + left. split; [done | by exists b, e].
  - left. by apply String.eqb_neq.
Qed.

(** The branch after the key is resolved: events that leave the response
    alone, then either the one response or a throw. *)
Lemma branch_shape (answers : value) :
  exists pre,
    forallb quiet pre = true /\
    ((exists code payload, branch w answers = (pre ++ [Status code; Json payload], Ok tt)) \/
     (exists e, branch w answers = (pre, Throw e))).
Proof.
  unfold branch. destruct (credential w) as [key|].
  - destruct (fetch_capability w) as [f|] eqn:Hf.
    + destruct (upstream_with_capability w key answers f Hf) as [-> Hpre].
      destruct (after_fetch_shape (f completions_url (completions_init key answers)))
        as (logs & code & payload & -> & Hlogs & _).
      exists (trace (getFetch w) ++
              Fetch completions_url (completions_init key answers) :: logs).
      split.
      * rewrite forallb_app. cbn [forallb quiet].
        rewrite (forallb_console_quiet logs Hlogs).
        by destruct Hpre as [-> | ->].
      * left. exists code, payload. cbn [trace outcome fst snd].
        by rewrite <- (assoc _).
    + destruct (upstream_without_capability w key answers Hf) as (err & _ & ->).
      exists [Import "node-fetch"; Console "error" "Server error in recommend function:"].
      split; [done|]. left. by eexists _, _.
  - destruct (pick_country answers) as [country|e] eqn:Hp.
    + rewrite (fallback_ok _ _ Hp). eexists [Console "warn" _].
      split; [done|]. left. by eexists _, _.
    + rewrite (fallback_throw _ _ Hp). eexists [Console "warn" _].
      split; [done|]. right. by exists e.
Qed.

(** Every run of the handler: first events that send nothing (and set no
    header, unless the method is refused), then either [res.status(code)]
    and [res.json(payload)] as the last two events, or a throw. *)
Lemma handler_shape (req : Request) :
  exists pre,
    (if String.eqb (method req) "POST" then forallb quiet pre = true
     else pre = [SetHeader "Allow" "POST"]) /\
    ((exists code payload, handler w req = (pre ++ [Status code; Json payload], Ok tt)) \/
     (exists e, handler w req = (pre, Throw e))).
Proof.
  destruct (handler_cases req) as [Hm | [(Hm & b & e & Hb & Ha) | (answers & Hc)]].
  - rewrite (handler_not_post w req Hm). apply String.eqb_neq in Hm. rewrite Hm.
    exists [SetHeader "Allow" "POST"]. split; [done|]. left. by eexists _, _.
  - rewrite (handler_body_throw req b e Hm Hb Ha), Hm. cbn [String.eqb Ascii.eqb Bool.eqb].
    exists (trace (readJsonBody req)). split; [|right; by exists e].
    by destruct (readJsonBody_trace req) as [-> | ->].
  - rewrite (handler_trace w req answers Hc).
    destruct Hc as [Hm _]. rewrite Hm. cbn [String.eqb Ascii.eqb Bool.eqb].
    destruct (branch_shape answers) as (pre & Hpre & Hbr).
    exists (trace (readJsonBody req) ++ trace (getApiKey w) ++ pre). split.
    + rewrite !forallb_app, Hpre.
      assert (forallb quiet (trace (getApiKey w)) = true) as ->.
      { pose proof (getApiKey_reads_files w) as Hf.
        induction (trace (getApiKey w)) as [|x t IH]; [done|]. cbn [forallb] in *.
        apply andb_true_iff in Hf as [Hx Ht]. rewrite IH by done. by destruct x. }
      by destruct (readJsonBody_trace req) as [-> | ->].
    + destruct Hbr as [(code & payload & ->) | (e & ->)]; cbn [trace outcome fst snd].
      * left. exists code, payload. by rewrite <- !(assoc _).
      * right. by exists e.
Qed.

End Shape.

(** X9. When the handler returns, sending the response is the last thing it
    has done: its trace ends with [res.status(code)] and [res.json(payload)]
    and holds no response before them.  The handler never goes on after
    answering. *)
Theorem nothing_after_response `{Builtins} (w : World) (req : Request) :
  outcome (handler w req) = Ok tt ->
  exists pre code payload,
    trace (handler w req) = pre ++ [Status code; Json payload] /\
    responses pre = [].
Proof.
  intros Ho. destruct (handler_shape w req) as (pre & Hpre & Hsh).
  destruct Hsh as [(code & payload & Heq) | (e & Heq)];
    [|by rewrite Heq in Ho].
  exists pre, code, payload. rewrite Heq. split; [done|].
  destruct (String.eqb (method req) "POST"); [by apply responses_of_quiet | by subst].
Qed.

Lemma nothing_after_response_witness :
  exists pre code payload,
    trace (@handler Ref.builtins
      (Sample.keyed (Ok (Response false 503 (Ok "busy")))) (Sample.post EmptyString)) =
      pre ++ [Status code; Json payload] /\
    responses pre = [].
Proof.
  apply (@nothing_after_response Ref.builtins
    (Sample.keyed (Ok (Response false 503 (Ok "busy")))) (Sample.post EmptyString)).
  reflexivity.
Defined.

(** X10. The only header the handler ever sets is Allow: POST, and it sets
    it exactly when it refuses the method. *)
Theorem headers_only_when_refused `{Builtins} (w : World) (req : Request) :
  headers (trace (handler w req)) =
    if String.eqb (method req) "POST" then [] else [("Allow", "POST")].
Proof.
  destruct (handler_shape w req) as (pre & Hpre & Hsh).
  assert (headers (trace (handler w req)) = headers pre) as ->.
  { destruct Hsh as [(code & payload & ->) | (e & ->)]; [|done].
    cbn [trace fst]. unfold headers. by rewrite omap_app, app_nil_r. }
  destruct (String.eqb (method req) "POST"); [by apply headers_quiet | by subst].
Qed.

(** X11. With no credential the handler stays offline for every request:
    it never imports node-fetch and never calls [fetch], whatever the
    request and whatever fetch the world offers. *)
Theorem no_credential_stays_offline `{Builtins} (w : World) (req : Request) :
  credential w = None ->
  List.filter (fun e => is_fetch e || is_import e) (trace (handler w req)) = [].
Proof.
  intros Hk.
  destruct (handler_cases req) as [Hm | [(Hm & b & e & Hb & Ha) | (answers & Hc)]].
  - by rewrite (handler_not_post w req Hm).
  - rewrite (handler_body_throw w req b e Hm Hb Ha).
    by destruct (readJsonBody_trace req) as [-> | ->].
  - rewrite (handler_trace w req answers Hc). unfold branch. rewrite Hk.
    cbn [trace fst]. rewrite !List.filter_app.
    rewrite (filter_none _ is_file_read (trace (getApiKey w)))
      by (by intros [] || apply getApiKey_reads_files).
    assert (List.filter (fun e => is_fetch e || is_import e) (trace (fallback answers)) = [])
      as -> by (unfold fallback; by destruct (pick_country answers)).
    by destruct (readJsonBody_trace req) as [-> | ->].
Qed.

Lemma no_credential_stays_offline_witness :
  List.filter (fun e => is_fetch e || is_import e)
    (trace (@handler Ref.builtins
       {| env := ∅; files := ∅;
          global_fetch := Some (fun _ _ => Throw (Error "unused"));
          node_fetch := Sample.no_node_fetch |}
       (Sample.post EmptyString))) = [].
Proof.
  apply (@no_credential_stays_offline Ref.builtins). reflexivity.
Defined.

Lemma pick_country_in_countries `{Builtins} (answers : value) (country : string) :
  pick_country answers = Ok country -> country ∈ countries.
Proof.
  unfold pick_country, countries.
  destruct (JS.prop answers "destinations"); [|done].
  destruct (JS.prop answers "relocationType") as [r|]; [|done].
  repeat match goal with
         | |- context [if ?b then _ else _] => destruct b
         end; try (intros [= <-]; set_solver).
  all: destruct (JS.or_else r (VStr "")); try done.
  all: repeat match goal with
         | |- context [if ?b then _ else _] => destruct b
         end; intros [= <-]; set_solver.
Qed.

(** With no credential, every POST request on which the pick of lines 69 to
    74 does not throw (also one with an array as relocationType, or with a
    destination that settles the pick before relocationType is looked at) is
    answered once, with 200 and the whole fallback recommendation, and
    nothing is fetched. *)
Lemma fallback_answers_unless_pick_throws `{Builtins} (w : World) (req : Request)
    (answers : value) :
  carries req answers ->
  credential w = None ->
  pick_throws answers = false ->
  exists country,
    country ∈ countries /\
    responses (trace (handler w req)) = [(200, fallback_body country)] /\
    outcome (handler w req) = Ok tt /\
    JS.field (fallback_body country) "score" = VNum 75 /\
    JS.field (fallback_body country) "reasons" =
      VArr [ VStr ("Based on your selections, " +:+ country
                   +:+ " aligns best with your priorities.");
             VStr "Good balance of lifestyle, services, and accessibility for your needs." ] /\
    JS.field (fallback_body country) "cities" = VArr (city_table country) /\
    List.filter is_fetch (trace (handler w req)) = [].
Proof.
  intros Hc Hk Hp.
  assert (JS.nullish answers = false) as Hn.
  { destruct Hc as (_ & b & a & _ & _ & ->). apply or_else_not_nullish. }
  destruct (pick_country answers) as [country|e] eqn:Hpick.
  - pose proof (pick_country_in_countries _ _ Hpick) as Hin.
    destruct (handler_fallback w req answers country Hc Hk Hpick) as (Hresp & Hf & Ho).
    destruct (fallback_body_fields country Hin) as (_ & F2 & F3 & F4).
    by exists country.
  - assert (pick_throws answers = true) as Ht
      by (apply pick_country_throws; [done | by exists e]).
    congruence.
Qed.

(** X12. Every 200 response of the handler in a world with no credential is
    a full recommendation, whatever the request: its country is one of
    Costa Rica, Panama and Belize, its score is 75, it has the two reasons
    and the three cities of that country. *)
Theorem fallback_recommendation_shape `{Builtins} (w : World) (req : Request)
    (payload : value) :
  credential w = None ->
  (200, payload) ∈ responses (trace (handler w req)) ->
  exists country,
    country ∈ countries /\
    JS.field payload "country" = VStr country /\
    JS.field payload "score" = VNum 75 /\
    JS.field payload "reasons" =
      VArr [ VStr ("Based on your selections, " +:+ country
                   +:+ " aligns best with your priorities.");
             VStr "Good balance of lifestyle, services, and accessibility for your needs." ] /\
    JS.field payload "cities" = VArr (city_table country).
Proof.
  intros Hk Hin.
  destruct (handler_cases req) as [Hm | [(Hm & b & e & Hb & Ha) | (answers & Hc)]].
  - rewrite (handler_not_post w req Hm) in Hin. cbn in Hin.
    apply list_elem_of_singleton in Hin. discriminate.
  - rewrite (handler_body_throw w req b e Hm Hb Ha) in Hin.
    destruct (readJsonBody_trace req) as [Ht | Ht]; rewrite Ht in Hin;
      by apply elem_of_nil in Hin.
  - destruct (handler_branch w req answers Hc) as (t & Hs & Heq).
    rewrite Heq in Hin. unfold branch in Hin. rewrite Hk in Hin.
    cbn [trace fst] in Hin. rewrite silent_responses in Hin by done.
    destruct (pick_country answers) as [country|e] eqn:Hp.
    + rewrite (fallback_ok _ _ Hp) in Hin. cbn in Hin.
      apply list_elem_of_singleton in Hin. injection Hin as ->.
      exists country. split; [by apply (pick_country_in_countries answers)|].
      by apply fallback_body_fields, (pick_country_in_countries answers).
    + rewrite (fallback_throw _ _ Hp) in Hin. cbn in Hin. by apply elem_of_nil in Hin.
Qed.

Lemma fallback_recommendation_shape_witness :
  exists country,
    country ∈ countries /\
    JS.field (fallback_body "Panama") "country" = VStr country /\
    JS.field (fallback_body "Panama") "score" = VNum 75 /\
    JS.field (fallback_body "Panama") "reasons" =
      VArr [ VStr ("Based on your selections, " +:+ country
                   +:+ " aligns best with your priorities.");
             VStr "Good balance of lifestyle, services, and accessibility for your needs." ] /\
    JS.field (fallback_body "Panama") "cities" = VArr (city_table country).
Proof.
  apply (@fallback_recommendation_shape Ref.builtins Sample.bare
    (Sample.post_parsed
       (VObj [("answers", VObj [("relocationType", VArr [VStr "study"; VStr "work"])])]))).
  - reflexivity.
  - apply list_elem_of_singleton. reflexivity.
Defined.

(** X13. A relocationType that is an array is searched by element, not by
    substring: with no destination equal to panama or belize, the fallback
    picks Panama exactly when the array holds the very string work. *)
Theorem array_relocationType_by_element `{Builtins} (w : World) (req : Request)
    (answers : value) (d : Destinations) (xs : list value) :
  carries req answers ->
  credential w = None ->
  destinations_is answers d ->
  VStr "panama" ∉ normalize d ->
  VStr "belize" ∉ normalize d ->
  JS.field answers "relocationType" = VArr xs ->
  (VStr "work" ∈ xs ->
   responses (trace (handler w req)) = [(200, fallback_body "Panama")]) /\
  (VStr "work" ∉ xs ->
   responses (trace (handler w req)) = [(200, fallback_body "Costa Rica")]).
Proof.
  intros Hc Hk Hd Hp Hb Hr.
  assert (JS.nullish answers = false) as Hn.
  { destruct Hc as (_ & b & a & _ & _ & ->). apply or_else_not_nullish. }
  assert (pick_country answers =
          Ok (if JS.array_includes xs "work" then "Panama" else "Costa Rica")) as Hpick.
  { unfold pick_country. rewrite !prop_not_nullish by done.
    rewrite (dests_includes _ d "panama"), (dests_includes _ d "belize") by done.
    apply array_includes_false in Hp, Hb. by rewrite Hp, Hb, Hr. }
  destruct (handler_fallback w req answers _ Hc Hk Hpick) as (Hresp & _ & _).
  rewrite Hresp. split; intros Hw.
  - apply array_includes_spec in Hw. by rewrite Hw.
  - apply array_includes_false in Hw. by rewrite Hw.
Qed.

Lemma array_relocationType_by_element_witness :
  responses (trace (@handler Ref.builtins Sample.bare
    (Sample.post_parsed
       (VObj [("answers", VObj [("relocationType", VArr [VStr "remote work"])])])))) =
    [(200, fallback_body "Costa Rica")].
Proof.
  refine (proj2 (@array_relocationType_by_element Ref.builtins Sample.bare _
    (VObj [("relocationType", VArr [VStr "remote work"])]) Absent [VStr "remote work"]
    _ _ _ _ _ _) _).
  - split; [reflexivity|]. eexists _, _. repeat split; reflexivity.
  - reflexivity.
  - reflexivity.
  - apply array_includes_false. reflexivity.
  - apply array_includes_false. reflexivity.
  - reflexivity.
  - apply array_includes_false. reflexivity.
Defined.

(** ** [trim] leaves nothing to trim *)

Lemma str_app_cons (x : ascii) (a b : string) :
  String x a +:+ b = String x (a +:+ b).
Proof. done. Qed.

Lemma str_app_assoc (a b c : string) : (a +:+ b) +:+ c = a +:+ (b +:+ c).
Proof. induction a as [|x a IH]; [done|]. by rewrite !str_app_cons, IH. Qed.

Lemma str_app_nil_r (a : string) : a +:+ EmptyString = a.
Proof. induction a as [|x a IH]; [done|]. by rewrite str_app_cons, IH. Qed.

Lemma str_length_app (a b : string) :
  String.length (a +:+ b) = (String.length a + String.length b)%nat.
Proof.
  induction a as [|x a IH]; [done|]. rewrite str_app_cons.
  change (S (String.length (a +:+ b)) = S (String.length a + String.length b)).
  by rewrite IH.
Qed.

Lemma str_rev_app_spec (a b : string) : String.rev_app a b = String.rev a +:+ b.
Proof.
  revert b. induction a as [|x a IH]; intros b; [done|].
  change (String.rev_app (String x a) b) with (String.rev_app a (String x b)).
  change (String.rev (String x a)) with (String.rev_app a (String x EmptyString)).
  by rewrite (IH (String x b)), (IH (String x EmptyString)), str_app_assoc.
Qed.

Lemma str_rev_cons (x : ascii) (a : string) :
  String.rev (String x a) = String.rev a +:+ String x EmptyString.
Proof. apply (str_rev_app_spec a (String x EmptyString)). Qed.

Lemma str_rev_app (a b : string) :
  String.rev (a +:+ b) = String.rev b +:+ String.rev a.
Proof.
  induction a as [|x a IH].
  - change (EmptyString +:+ b) with b. by rewrite str_app_nil_r.
  - by rewrite str_app_cons, !str_rev_cons, IH, str_app_assoc.
Qed.

Lemma str_rev_involutive (a : string) : String.rev (String.rev a) = a.
Proof.
  induction a as [|x a IH]; [done|]. by rewrite str_rev_cons, str_rev_app, IH.
Qed.

Lemma str_length_rev (a : string) : String.length (String.rev a) = String.length a.
Proof.
  induction a as [|x a IH]; [done|].
  rewrite str_rev_cons, str_length_app, IH.
  change (String.length (String x a)) with (S (String.length a)).
  change (String.length (String x EmptyString)) with 1%nat. lia.
Qed.

Lemma strip_prefix_spec (p s r : string) :
  Str.strip_prefix p s = Some r <-> s = p +:+ r.
Proof.
  revert s. induction p as [|a p IH]; intros s; cbn.
  - split; [by intros [= ->] | by intros ->].
  - destruct s as [|b s]; [split; [done | discriminate]|].
    destruct (Ascii.eqb a b) eqn:Hab.
    + apply Ascii.eqb_eq in Hab as ->. rewrite IH. split; [by intros -> | by intros [= ->]].
    + apply Ascii.eqb_neq in Hab. split; [done | intros [= -> _]; done].
Qed.

Lemma strip_one_Some (ws : list string) (s r : string) :
  Str.strip_one ws s = Some r -> exists w, w ∈ ws /\ s = w +:+ r.
Proof.
  induction ws as [|w ws IH]; [done|]. cbn.
  destruct (Str.strip_prefix w s) as [r'|] eqn:Hw.
  - intros [= ->]. exists w. split; [by left | by apply strip_prefix_spec].
  - intros (w' & Hin & Heq)%IH. exists w'. split; [by right | done].
Qed.

Lemma strip_one_None (ws : list string) (s : string) :
  Str.strip_one ws s = None -> forall w r, w ∈ ws -> s <> w +:+ r.
Proof.
  induction ws as [|w ws IH]; [by intros _ w r Hin%elem_of_nil|]. cbn.
  destruct (Str.strip_prefix w s) as [r'|] eqn:Hw; [done|].
  intros Hn w' r [-> | Hin]%elem_of_cons.
  - intros Heq%strip_prefix_spec. congruence.
  - by apply IH.
Qed.

Lemma strip_one_shorter (ws : list string) (s r : string) :
  forallb Str.nonempty ws = true ->
  Str.strip_one ws s = Some r -> (String.length r < String.length s)%nat.
Proof.
  intros Hws (w & Hin & ->)%strip_one_Some. rewrite str_length_app.
  rewrite forallb_forall in Hws. specialize (Hws w).
  rewrite <- list_elem_of_In in Hws. specialize (Hws Hin).
  destruct w; [done|]. cbn. lia.
Qed.

(** With enough fuel [strip_many] stops only where nothing is left to
    strip. *)
Lemma strip_many_done (ws : list string) (n : nat) (s : string) :
  forallb Str.nonempty ws = true ->
  (String.length s <= n)%nat ->
  Str.strip_one ws (Str.strip_many ws n s) = None.
Proof.
  intros Hws. revert s. induction n as [|n IH]; intros s Hn; cbn.
  - destruct s; [|cbn in Hn; lia].
    destruct (Str.strip_one ws EmptyString) as [r|] eqn:Hr; [|done].
    apply (strip_one_shorter _ _ _ Hws) in Hr. cbn in Hr. lia.
  - destruct (Str.strip_one ws s) as [r|] eqn:Hr; [|done].
    apply IH. apply (strip_one_shorter _ _ _ Hws) in Hr. lia.
Qed.

Lemma strip_many_fixed (ws : list string) (n : nat) (s : string) :
  Str.strip_one ws s = None -> Str.strip_many ws n s = s.
Proof. intros Hs. destruct n; [done|]. cbn. by rewrite Hs. Qed.

(** What [strip_many] returns is an end of what it was given. *)
Lemma strip_many_suffix (ws : list string) (n : nat) (s : string) :
  exists p, s = p +:+ Str.strip_many ws n s.
Proof.
  revert s. induction n as [|n IH]; intros s; cbn; [by exists EmptyString|].
  destruct (Str.strip_one ws s) as [r|] eqn:Hr; [|by exists EmptyString].
  apply strip_one_Some in Hr as (w & _ & ->).
  destruct (IH r) as (p & Hp). exists (w +:+ p).
  by rewrite str_app_assoc, <- Hp.
Qed.

(** [trimStart] leaves no white space in front. *)
Lemma trimStart_done (s : string) :
  Str.strip_one Str.WhiteSpace (Str.trimStart s) = None.
Proof. by apply strip_many_done. Qed.

(** [trimEnd] leaves no white space at the end, and returns a beginning of
    its argument. *)
Lemma trimEnd_done (s : string) :
  Str.strip_one (map String.rev Str.WhiteSpace) (String.rev (Str.trimEnd s)) = None.
Proof.
  unfold Str.trimEnd. rewrite str_rev_involutive.
  apply strip_many_done; [done|]. by rewrite str_length_rev.
Qed.

Lemma trimEnd_prefix (s : string) : exists q, s = Str.trimEnd s +:+ q.
Proof.
  unfold Str.trimEnd.
  destruct (strip_many_suffix (map String.rev Str.WhiteSpace) (String.length s)
              (String.rev s)) as (p & Hp).
  exists (String.rev p).
  by rewrite <- str_rev_app, <- Hp, str_rev_involutive.
Qed.

(** A trimmed string has white space neither in front nor at the end. *)
Lemma trim_done (s : string) :
  Str.strip_one Str.WhiteSpace (Str.trim s) = None /\
  Str.strip_one (map String.rev Str.WhiteSpace) (String.rev (Str.trim s)) = None.
Proof.
  split; [|apply trimEnd_done]. unfold Str.trim.
  destruct (Str.strip_one _ (Str.trimEnd _)) as [r|] eqn:Hr; [|done].
  apply strip_one_Some in Hr as (w & Hin & Hw).
  destruct (trimEnd_prefix (Str.trimStart s)) as (q & Hq).
  exfalso. apply (strip_one_None _ _ (trimStart_done s) w (r +:+ q) Hin).
  by rewrite Hq at 1; rewrite Hw, str_app_assoc.
Qed.

(** Trimming twice is trimming once. *)
Lemma trim_idempotent (s : string) : Str.trim (Str.trim s) = Str.trim s.
Proof.
  destruct (trim_done s) as [Hfront Hback].
  unfold Str.trim at 1. unfold Str.trimStart. rewrite strip_many_fixed by done.
  unfold Str.trimEnd. rewrite strip_many_fixed by done.
  apply str_rev_involutive.
Qed.

Lemma candidates_trimmed (w : World) (k : string) :
  Some k ∈ candidates w -> exists s, k = Str.trim s.
Proof.
  unfold candidates. rewrite !elem_of_cons, elem_of_nil.
  intros [Hc | [Hc | [Hc | [Hc | [Hc | []]]]]];
    match type of Hc with
    | Some _ = Str.trim <$> ?o => destruct o as [s|]; [|done]
    end; injection Hc as ->; by exists s.
Qed.

(** X14. A key returned by [getApiKey] is never empty and carries no white
    space around it: no white-space character stands in front of it or at
    its end, and trimming it again changes nothing. *)
Theorem resolved_key_is_trimmed (w : World) (k : string) :
  outcome (getApiKey w) = Ok (Some k) ->
  k <> EmptyString /\
  Str.trim k = k /\
  (forall ws rest, ws ∈ Str.WhiteSpace -> k <> ws +:+ rest) /\
  (forall ws rest, ws ∈ Str.WhiteSpace -> k <> rest +:+ ws).
Proof.
  intros Ho. destruct (getApiKey_spec w) as [Hk _]. rewrite Hk in Ho.
  injection Ho as Hc. unfold credential in Hc.
  pose proof (first_nonempty_nonempty _ _ Hc) as Hne.
  apply first_nonempty_first in Hc as (_ & i & Hi & _).
  apply list_elem_of_lookup_2, candidates_trimmed in Hi as (s & ->).
  destruct (trim_done s) as [Hfront Hback].
  split; [by intros Heq; rewrite Heq in Hne|].
  split; [apply trim_idempotent|]. split.
  - intros ws rest Hin. by apply (strip_one_None _ _ Hfront).
  - intros ws rest Hin Heq.
    apply (strip_one_None _ _ Hback (String.rev ws) (String.rev rest)).
    + apply list_elem_of_fmap. by exists ws.
    + by rewrite Heq, str_rev_app.
Qed.

Lemma resolved_key_is_trimmed_witness :
  "sk-local" <> EmptyString /\
  Str.trim "sk-local" = "sk-local" /\
  (forall ws rest, ws ∈ Str.WhiteSpace -> "sk-local" <> ws +:+ rest) /\
  (forall ws rest, ws ∈ Str.WhiteSpace -> "sk-local" <> rest +:+ ws).
Proof.
  apply (resolved_key_is_trimmed (keyed_by_file (Throw (Error "unused")))).
  reflexivity.
Defined.

(** X15. A non-blank environment variable makes [getApiKey] return its
    trimmed value without reading any file: OPENAI_API_KEY first, whatever
    else is set, and OPEN_AI_KEY when OPENAI_API_KEY is not set or blank. *)
Theorem environment_key_reads_no_file (w : World) (s : string) :
  Str.trim s <> EmptyString ->
  env w !! "OPENAI_API_KEY" = Some s \/
  ((forall s', env w !! "OPENAI_API_KEY" = Some s' -> Str.trim s' = EmptyString) /\
   env w !! "OPEN_AI_KEY" = Some s) ->
  getApiKey w = ([], Ok (Some (Str.trim s))).
Proof.
  intros Hs Henv.
  assert (forall name, env w !! name = Some s -> env_key w name = Some (Str.trim s)) as Hfound.
  { intros name Hn. rewrite env_key_spec, Hn. cbn. unfold Str.nonempty.
    by apply String.eqb_neq in Hs as ->. }
  unfold getApiKey. destruct Henv as [H1 | [H1 H2]].
  - by rewrite (Hfound _ H1).
  - assert (env_key w "OPENAI_API_KEY" = None) as ->.
    { rewrite env_key_spec. destruct (env w !! "OPENAI_API_KEY") as [s'|]; [|done].
      cbn. by rewrite (H1 s' eq_refl). }
    by rewrite (Hfound _ H2).
Qed.

Lemma environment_key_reads_no_file_witness :
  getApiKey
    {| env := {[ "OPENAI_API_KEY" := "  "; "OPEN_AI_KEY" := " sk-second " ]};
       files := {[ "./OPEN_AI_KEY" := "sk-local" ]};
       global_fetch := None;
       node_fetch := Sample.no_node_fetch |} = ([], Ok (Some "sk-second")).
Proof.
  apply (environment_key_reads_no_file
    {| env := {[ "OPENAI_API_KEY" := "  "; "OPEN_AI_KEY" := " sk-second " ]};
       files := {[ "./OPEN_AI_KEY" := "sk-local" ]};
       global_fetch := None;
       node_fetch := Sample.no_node_fetch |} " sk-second ").
  - discriminate.
  - right. split; [|reflexivity]. intros s' Hs'. vm_compute in Hs'.
    injection Hs' as <-. reflexivity.
Defined.

(** The branch after the key is resolved reads neither the request stream
    nor a file. *)
Lemma branch_never_reads `{Builtins} (w : World) (answers : value) :
  List.filter (fun e => is_stream_read e || is_file_read e) (trace (branch w answers)) = [].
Proof.
  unfold branch. destruct (credential w) as [key|].
  - destruct (fetch_capability w) as [f|] eqn:Hf.
    + destruct (upstream_with_capability w key answers f Hf) as [-> Hpre].
      destruct (after_fetch_shape (f completions_url (completions_init key answers)))
        as (logs & code & payload & -> & Hlogs & _).
      cbn [trace fst]. rewrite List.filter_app. cbn [List.filter is_stream_read is_file_read orb].
      rewrite List.filter_app, (filter_none _ is_console logs) by (by intros [] || done).
      by destruct Hpre as [-> | ->].
    + by destruct (upstream_without_capability w key answers Hf) as (err & _ & ->).
  - unfold fallback. by destruct (pick_country answers).
Qed.

(** X17. When the transport has already parsed a non-empty body, the
    handler uses it and never touches the request stream: whatever the
    stream holds, and however it ends, the run is the same, and it has no
    stream read in it. *)
Theorem parsed_body_wins `{Builtins} (w : World) (req : Request)
    (cs : list string) (fin : stream_end) :
  JS.truthy (body req) && JS.has_keys (body req) = true ->
  handler w (with_stream req cs fin) = handler w req /\
  List.filter is_stream_read (trace (handler w req)) = [].
Proof.
  intros Hb.
  assert (forall r, body r = body req -> readJsonBody r = ([], Ok (body req))) as Hread.
  { intros r Hr. unfold readJsonBody. by rewrite Hr, Hb. }
  split.
  - unfold handler. cbn [method with_stream].
    by rewrite (Hread (with_stream req cs fin) eq_refl), (Hread req eq_refl).
  - destruct (handler_cases req) as [Hm | [(Hm & b & e & Hbody & Ha) | (answers & Hc)]].
    + by rewrite (handler_not_post w req Hm).
    + by rewrite (handler_body_throw w req b e Hm Hbody Ha), (Hread req eq_refl).
    + rewrite (handler_trace w req answers Hc), (Hread req eq_refl).
      cbn [trace fst app]. rewrite List.filter_app.
      rewrite (filter_none _ is_file_read (trace (getApiKey w)))
        by (by intros [] || apply getApiKey_reads_files).
      pose proof (branch_never_reads w answers) as Hbr.
      induction (trace (branch w answers)) as [|x t IH]; [done|].
      cbn [List.filter] in *. destruct x; cbn in *; try done; by apply IH.
Qed.

Lemma parsed_body_wins_witness :
  @handler Ref.builtins Sample.bare
    (with_stream (Sample.post_parsed (VObj [("answers", VObj [("destinations", VStr "belize")])]))
       ["not even json"] StreamError) =
  @handler Ref.builtins Sample.bare
    (Sample.post_parsed (VObj [("answers", VObj [("destinations", VStr "belize")])])).
Proof.
  refine (proj1 (@parsed_body_wins Ref.builtins Sample.bare
    (Sample.post_parsed (VObj [("answers", VObj [("destinations", VStr "belize")])]))
    ["not even json"] StreamError _)).
  reflexivity.
Defined.

(** ** Which status, and why *)

Lemma responses_handler_branch `{Builtins} (w : World) (req : Request) (answers : value) :
  carries req answers ->
  responses (trace (handler w req)) = responses (trace (branch w answers)).
Proof.
  intros Hc. destruct (handler_branch w req answers Hc) as (t & Hs & ->).
  cbn [trace fst]. by apply silent_responses.
Qed.

(** After the call of [fetch], a 502 is sent only for a response that is not
    ok and whose body was read. *)
Lemma after_fetch_502 `{Builtins} (r : result response) (payload : value) :
  (502, payload) ∈ responses (trace (after_fetch r)) ->
  exists resp txt,
    r = Ok resp /\ resp_ok resp = false /\ resp_text resp = Ok txt /\
    payload = VObj [ ("error", VStr "OpenAI API error");
                     ("status", VNum (resp_status resp));
                     ("body", VStr txt) ].
Proof.
  unfold after_fetch, handle_response, resp_json, assistant_of.
  destruct r as [resp|e]; cbn;
    [|by intros [=]%list_elem_of_singleton].
  destruct (resp_ok resp) eqn:Hok; cbn; destruct (resp_text resp) as [txt|e] eqn:Ht; cbn;
    try (by intros [=]%list_elem_of_singleton).
  - destruct (JSON_parse txt) as [j|e]; cbn; [|by intros [=]%list_elem_of_singleton].
    destruct (JS.prop j "choices") as [c|e]; cbn; [|by intros [=]%list_elem_of_singleton].
    destruct (parse_assistant _) as [parsed|e]; cbn; by intros [=]%list_elem_of_singleton.
  - intros [= ->]%list_elem_of_singleton. by exists resp, txt.
Qed.

(** X18. A 502 from the handler always means that the upstream was reached
    and answered with a status that is not ok: the request took the upstream
    path, the fetched response was not ok, its body was read, and the body
    of the 502 quotes that status and that text. *)
Theorem a_502_quotes_the_upstream `{Builtins} (w : World) (req : Request) (payload : value) :
  (502, payload) ∈ responses (trace (handler w req)) ->
  exists resp txt,
    upstream_answers w req resp /\
    resp_ok resp = false /\
    resp_text resp = Ok txt /\
    payload = VObj [ ("error", VStr "OpenAI API error");
                     ("status", VNum (resp_status resp));
                     ("body", VStr txt) ].
Proof.
  intros Hin.
  destruct (handler_cases req) as [Hm | [(Hm & b & e & Hb & Ha) | (answers & Hc)]].
  - rewrite (handler_not_post w req Hm) in Hin. cbn in Hin.
    by apply list_elem_of_singleton in Hin.
  - rewrite (handler_body_throw w req b e Hm Hb Ha) in Hin.
    destruct (readJsonBody_trace req) as [Ht | Ht]; rewrite Ht in Hin;
      by apply elem_of_nil in Hin.
  - rewrite (responses_handler_branch w req answers Hc) in Hin. unfold branch in Hin.
    destruct (credential w) as [key|] eqn:Hk.
    + destruct (fetch_capability w) as [f|] eqn:Hf.
      * destruct (upstream_with_capability w key answers f Hf) as [Hup Hpre].
        rewrite Hup in Hin. cbn [trace fst] in Hin.
        rewrite responses_quiet in Hin by (by destruct Hpre as [-> | ->]).
        change (responses (?e :: ?t)) with (responses ([e] ++ t)) in Hin.
        rewrite responses_quiet in Hin by done.
        apply after_fetch_502 in Hin as (resp & txt & Hr & Hok & Ht & ->).
        exists resp, txt. split; [|done]. by exists answers, key, f.
      * destruct (upstream_without_capability w key answers Hf) as (err & _ & Hup).
        rewrite Hup in Hin. cbn in Hin. by apply list_elem_of_singleton in Hin.
    + unfold fallback in Hin. destruct (pick_country answers); cbn in Hin.
      * by apply list_elem_of_singleton in Hin.
      * by apply elem_of_nil in Hin.
Qed.

Lemma a_502_quotes_the_upstream_witness :
  exists resp txt,
    @upstream_answers Ref.builtins
      (Sample.keyed (Ok (Response false 429 (Ok "rate limited"))))
      (Sample.post EmptyString) resp /\
    resp_ok resp = false /\
    resp_text resp = Ok txt /\
    VObj [ ("error", VStr "OpenAI API error"); ("status", VNum 429);
           ("body", VStr "rate limited") ] =
    VObj [ ("error", VStr "OpenAI API error");
           ("status", VNum (resp_status resp));
           ("body", VStr txt) ].
Proof.
  apply (@a_502_quotes_the_upstream Ref.builtins
    (Sample.keyed (Ok (Response false 429 (Ok "rate limited")))) (Sample.post EmptyString)).
  apply list_elem_of_singleton. reflexivity.
Defined.

(** X19. The status of a response tells the path: 405 is sent exactly for a
    method other than POST; a POST gets 200, 502 or 500, and 502 and 500 only
    when a credential was resolved. *)
Theorem status_tells_the_path `{Builtins} (w : World) (req : Request)
    (code : Z) (payload : value) :
  (code, payload) ∈ responses (trace (handler w req)) ->
  (code = 405 /\ method req <> "POST") \/
  (method req = "POST" /\
   (code = 200 \/ ((code = 502 \/ code = 500) /\ is_Some (credential w)))).
Proof.
  intros Hin.
  destruct (handler_cases req) as [Hm | [(Hm & b & e & Hb & Ha) | (answers & Hc)]].
  - rewrite (handler_not_post w req Hm) in Hin. cbn in Hin.
    apply list_elem_of_singleton in Hin. injection Hin as -> _. by left.
  - rewrite (handler_body_throw w req b e Hm Hb Ha) in Hin.
    destruct (readJsonBody_trace req) as [Ht | Ht]; rewrite Ht in Hin;
      by apply elem_of_nil in Hin.
  - right. split; [by destruct Hc|].
    rewrite (responses_handler_branch w req answers Hc) in Hin. unfold branch in Hin.
    destruct (credential w) as [key|] eqn:Hk.
    + destruct (upstream_total w key answers) as (code' & payload' & Hr & Hcode & _).
      rewrite Hr in Hin. apply list_elem_of_singleton in Hin. injection Hin as -> ->.
      revert Hcode. rewrite !elem_of_cons, elem_of_nil.
      intros [-> | [-> | [-> | []]]]; [by left | right | right]; by eauto.
    + unfold fallback in Hin. destruct (pick_country answers); cbn in Hin.
      * apply list_elem_of_singleton in Hin. injection Hin as -> _. by left.
      * by apply elem_of_nil in Hin.
Qed.

Lemma status_tells_the_path_witness :
  (500 = 405 /\ method (Sample.post EmptyString) <> "POST") \/
  (method (Sample.post EmptyString) = "POST" /\
   (500 = 200 \/ ((500 = 502 \/ 500 = 500) /\ is_Some (credential keyed_without_fetch)))).
Proof.
  apply (@status_tells_the_path Ref.builtins keyed_without_fetch (Sample.post EmptyString)
           500 (server_error (no_fetch_error (Error "Cannot find package 'node-fetch'")))).
  apply list_elem_of_singleton. reflexivity.
Defined.

(** X20. node-fetch is imported at most once in a run, and only on the
    upstream path of a world without a global [fetch]: never when the method
    is refused, never without a credential, never when [globalThis.fetch] is
    a function. *)
Theorem import_only_without_global_fetch `{Builtins} (w : World) (req : Request) :
  List.filter is_import (trace (handler w req)) = [] \/
  (List.filter is_import (trace (handler w req)) = [Import "node-fetch"] /\
   method req = "POST" /\ global_fetch w = None /\ is_Some (credential w)).
Proof.
  destruct (handler_cases req) as [Hm | [(Hm & b & e & Hb & Ha) | (answers & Hc)]].
  - left. by rewrite (handler_not_post w req Hm).
  - left. rewrite (handler_body_throw w req b e Hm Hb Ha).
    by destruct (readJsonBody_trace req) as [-> | ->].
  - rewrite (handler_trace w req answers Hc). cbn [trace fst].
    rewrite !List.filter_app.
    rewrite (filter_none _ is_file_read (trace (getApiKey w)))
      by (by intros [] || apply getApiKey_reads_files).
    assert (List.filter is_import (trace (readJsonBody req)) = []) as ->
      by (by destruct (readJsonBody_trace req) as [-> | ->]).
    cbn [app]. unfold branch. destruct (credential w) as [key|] eqn:Hk.
    + destruct (fetch_capability w) as [f|] eqn:Hf.
      * destruct (upstream_with_capability w key answers f Hf) as [-> Hpre].
        destruct (after_fetch_shape (f completions_url (completions_init key answers)))
          as (logs & code & payload & -> & Hlogs & _).
        cbn [trace fst]. rewrite List.filter_app. cbn [List.filter is_import].
        rewrite List.filter_app, (filter_none _ is_console logs) by (by intros [] || done).
        cbn [List.filter is_import app]. rewrite app_nil_r.
        unfold getFetch. unfold fetch_capability in Hf.
        destruct (global_fetch w) as [g|]; [by left|].
        destruct (node_fetch w) as [g|err]; [|done].
        right. split; [done|]. split; [by destruct Hc|]. by eauto.
      * destruct (upstream_without_capability w key answers Hf) as (err & _ & ->).
        right. split; [done|]. split; [by destruct Hc|]. split; [|by eauto].
        unfold fetch_capability in Hf. by destruct (global_fetch w).
    + left. unfold fallback. by destruct (pick_country answers).
Qed.
